(** * acc-setup-sync: a shallow embedding of [accSetupSync.py]

    The script mirrors the setup files of one car across the fifteen track
    folders of Assetto Corsa Competizione.  This development embeds the file
    system calls it makes, the pausing observer, the event handler
    [on_modified], [create_track_dirs] and [init], and the observer thread
    that [main] starts; it states the properties of the specification over
    these definitions, and further properties the code shows.  Argument
    parsing, logging and signal handling are outside it.

    Modelling conventions.
    - A path is the list of its segments, outermost first.  [os.path.split]
      is the pair (all but the last segment, last segment) and
      [os.path.join p name] appends one segment; every name the program
      joins is either a track name or a name returned by [os.listdir].
    - The file system is a finite map from paths to nodes.  A node is a
      regular file with its bytes, or a directory.
    - A Python call is a function from the state to an outcome and the state
      after it: exceptions leave the writes made before them in place.
    - Logging has no effect on the file system or the observer and is left
      out. *)

From stdpp Require Import gmap strings list fin_maps.
From Stdlib Require Import Strings.Byte.


(** ** Paths *)

Abbreviation path := (list string).

Definition os_path_dirname (p : path) : path := removelast p.
Definition os_path_basename (p : path) : string := List.last p "".
Definition os_path_split (p : path) : path * string :=
  (os_path_dirname p, os_path_basename p).
Definition os_path_join (p : path) (name : string) : path := p ++ [name].

(** ** File system *)

Inductive node : Type :=
| File (data : list byte)
| Dir.

Definition is_file (m : gmap path node) (p : path) : bool :=
  match m !! p with Some (File _) => true | _ => false end.

Definition is_dir (m : gmap path node) (p : path) : bool :=
  match m !! p with Some Dir => true | _ => false end.

Fixpoint strip_prefix (p k : path) : option path :=
  match p, k with
  | [], _ => Some k
  | a :: p', b :: k' => if decide (a = b) then strip_prefix p' k' else None
  | _ :: _, [] => None
  end.

Definition entry_name (p k : path) : option string :=
  match strip_prefix p k with
  | Some [name] => Some name
  | _ => None
  end.

(** The names directly under [p], in the order the map enumerates them
    ([os.listdir] promises no order). *)
Definition dir_entries (m : gmap path node) (p : path) : list string :=
  omap (λ kv, entry_name p kv.1) (map_to_list m).

(** ** Events and the observer *)

Inductive event_kind : Type := Modified | Created | Deleted | Moved.

Record FileSystemEvent : Type := {
  event_type : event_kind;
  src_path : path;
  is_directory : bool
}.

(** Mutating file system calls that completed. *)
Inductive fs_op : Type :=
| OpMkdir (p : path)
| OpCopyfile (src dst : path)
| OpRemove (p : path)
| OpRename (src dst : path).

(** What the observer did, in order. *)
Inductive obs_action : Type :=
| ASetPaused (b : bool)
| ASleep (d : N)
| AClearQueue
| ADispatch (e : FileSystemEvent).

Record state : Type := {
  fs : gmap path node;
  ops : list fs_op;
  is_paused : option bool;   (* [None]: the attribute [_is_paused] is not set yet *)
  event_queue : list FileSystemEvent;
  timeout : N;
  obs_log : list obs_action
}.

Definition set_fs (m : gmap path node) (o : fs_op) (s : state) : state :=
  {| fs := m; ops := ops s ++ [o]; is_paused := is_paused s;
     event_queue := event_queue s; timeout := timeout s; obs_log := obs_log s |}.

Definition set_paused (b : bool) (s : state) : state :=
  {| fs := fs s; ops := ops s; is_paused := Some b;
     event_queue := event_queue s; timeout := timeout s;
     obs_log := obs_log s ++ [ASetPaused b] |}.

Definition set_queue (q : list FileSystemEvent) (s : state) : state :=
  {| fs := fs s; ops := ops s; is_paused := is_paused s;
     event_queue := q; timeout := timeout s; obs_log := obs_log s |}.

Definition log_obs (a : obs_action) (s : state) : state :=
  {| fs := fs s; ops := ops s; is_paused := is_paused s;
     event_queue := event_queue s; timeout := timeout s;
     obs_log := obs_log s ++ [a] |}.

(** ** Outcomes and the state-and-exception monad *)

Inductive exn : Type :=
| FileNotFoundError
| FileExistsError
| IsADirectoryError
| NotADirectoryError
| SameFileError
| ShutilError
| UnboundLocalError
| TypeError
| Unmodelled.

Inductive outcome (A : Type) : Type :=
| Ok (a : A)
| Raise (e : exn).
Arguments Ok {A} a.
Arguments Raise {A} e.

Definition M (A : Type) : Type := state → outcome A * state.

Definition ret {A} (a : A) : M A := λ s, (Ok a, s).
Definition raise {A} (e : exn) : M A := λ s, (Raise e, s).
Definition bind {A B} (m : M A) (f : A → M B) : M B := λ s,
  match m s with
  | (Ok a, s') => f a s'
  | (Raise e, s') => (Raise e, s')
  end.

Declare Scope py_scope.
Delimit Scope py_scope with py.
Notation "x ← m ; k" := (bind m (λ x, k))
  (at level 20, m at level 100, k at level 200, only parsing) : py_scope.
Notation "m ;; k" := (bind m (λ _, k))
  (at level 100, k at level 200, right associativity, only parsing) : py_scope.
Open Scope py_scope.

(** [for x in l: body x] *)
Fixpoint for_each {A} (l : list A) (body : A → M unit) : M unit :=
  match l with
  | [] => ret tt
  | x :: l' => body x ;; for_each l' body
  end.

(** Reading a local variable that no executed statement has bound. *)
Definition read_local {A} (v : option A) : M A :=
  match v with
  | Some a => ret a
  | None => raise UnboundLocalError
  end.

(** Using a value that may be Python's [None] where a [str] is required. *)
Definition as_str (v : option string) : M string :=
  match v with
  | Some a => ret a
  | None => raise TypeError
  end.

(** ** File system calls *)

Definition os_path_isfile (p : path) : M bool := λ s, (Ok (is_file (fs s) p), s).
Definition os_path_isdir (p : path) : M bool := λ s, (Ok (is_dir (fs s) p), s).

Definition os_listdir (p : path) : M (list string) := λ s,
  match fs s !! p with
  | None => (Raise FileNotFoundError, s)
  | Some (File _) => (Raise NotADirectoryError, s)
  | Some Dir => (Ok (dir_entries (fs s) p), s)
  end.

Definition os_mkdir (p : path) : M unit := λ s,
  match fs s !! os_path_dirname p with
  | None => (Raise FileNotFoundError, s)
  | Some (File _) => (Raise NotADirectoryError, s)
  | Some Dir =>
      match fs s !! p with
      | Some _ => (Raise FileExistsError, s)
      | None => (Ok tt, set_fs (<[p := Dir]> (fs s)) (OpMkdir p) s)
      end
  end.

Definition os_remove (p : path) : M unit := λ s,
  match fs s !! p with
  | None => (Raise FileNotFoundError, s)
  | Some Dir => (Raise IsADirectoryError, s)
  | Some (File _) => (Ok tt, set_fs (delete p (fs s)) (OpRemove p) s)
  end.

(** [shutil.copyfile]: the source is opened for reading, then the
    destination for writing (created or truncated). *)
Definition shutil_copyfile (src dst : path) : M unit := λ s,
  match fs s !! src with
  | None => (Raise FileNotFoundError, s)
  | Some n =>
      if decide (src = dst) then (Raise SameFileError, s) else
      match n with
      | Dir => (Raise IsADirectoryError, s)
      | File data =>
          match fs s !! dst with
          | Some Dir => (Raise IsADirectoryError, s)
          | _ =>
              match fs s !! os_path_dirname dst with
              | None => (Raise FileNotFoundError, s)
              | Some (File _) => (Raise NotADirectoryError, s)
              | Some Dir =>
                  (Ok tt, set_fs (<[dst := File data]> (fs s)) (OpCopyfile src dst) s)
              end
          end
      end
  end.

(** [shutil.copy]: a directory destination means "into that directory";
    the permission bits it also copies are not part of the model. *)
Definition shutil_copy (src dst : path) : M unit :=
  d ← os_path_isdir dst;
  let dst' := if d : bool then os_path_join dst (os_path_basename src) else dst in
  shutil_copyfile src dst'.

(** [shutil.move] of a regular file.  [os.rename] replaces an existing
    destination file; where the platform refuses, [shutil.move] falls back
    to copy-then-unlink, with the same final state.  The program only moves
    names that [list_dir] has just reported as regular files; a directory
    source is outside the modelled fragment and is reported as
    [Unmodelled]. *)
Definition shutil_move (src dst : path) : M unit := λ s,
  if is_dir (fs s) src then (Raise Unmodelled, s) else
  let real_dst :=
    if is_dir (fs s) dst then os_path_join dst (os_path_basename src) else dst in
  if is_dir (fs s) dst && bool_decide (is_Some (fs s !! real_dst))
  then (Raise ShutilError, s) else
  match fs s !! src with
  | None => (Raise FileNotFoundError, s)
  | Some Dir => (Raise Unmodelled, s)
  | Some (File data) =>
      if decide (src = real_dst) then (Ok tt, s) else
      match fs s !! os_path_dirname real_dst with
      | None => (Raise FileNotFoundError, s)
      | Some (File _) => (Raise NotADirectoryError, s)
      | Some Dir =>
          (Ok tt, set_fs (<[real_dst := File data]> (delete src (fs s)))
                         (OpRename src real_dst) s)
      end
  end.

(** ** The program *)

Definition ACC_TRACK_FOLDERS : list string :=
  [ "Barcelona"; "brands_hatch"; "Hungaroring"; "Kyalami"; "Laguna_Seca";
    "misano"; "monza"; "mount_panorama"; "nurburgring"; "Paul_Ricard";
    "Silverstone"; "Spa"; "Suzuka"; "Zandvoort"; "Zolder" ].

(** *** The pausing observer *)

(** The emitter thread of the watch backend runs beside the handler and puts
    the events it observes on the observer's queue.  What it puts there
    while the protected block runs and while [resume] sleeps is not under
    the program's control: both lists are arbitrary. *)
Record emitter : Type := {
  during_block : list FileSystemEvent;
  during_sleep : list FileSystemEvent
}.

Definition concurrently (evs : list FileSystemEvent) (m : M unit) : M unit := λ s,
  let '(r, s') := m s in (r, set_queue (event_queue s' ++ evs) s').

Definition time_sleep (d : N) (evs : list FileSystemEvent) : M unit := λ s,
  (Ok tt, log_obs (ASleep d) (set_queue (event_queue s ++ evs) s)).

(** [getattr(self, '_is_paused', False)] *)
Definition paused (s : state) : bool := default false (is_paused s).

Definition pause : M unit := λ s, (Ok tt, set_paused true s).

Definition resume (em : emitter) : M unit :=
  (λ s, time_sleep (timeout s) (during_sleep em) s) ;;
  (λ s, (Ok tt, log_obs AClearQueue (set_queue [] s))) ;;
  (λ s, (Ok tt, set_paused false s)).

(** A context manager made by [contextlib.contextmanager] from a generator
    with one [yield]: the statements before the [yield], the statements
    after it (run when the block ends without an exception, also by
    [return]), and what the generator does with an exception of the block,
    which is thrown into it at the [yield]. *)
Record context_manager : Type := {
  cm_enter : M unit;
  cm_exit : M unit;
  cm_throw : exn → M unit
}.

(** [with cm: block].  When the generator ends normally after a thrown-in
    exception, the exception is suppressed. *)
Definition with_ (cm : context_manager) (block : M unit) : M unit :=
  cm_enter cm ;;
  λ s, match block s with
       | (Ok _, s') => cm_exit cm s'
       | (Raise e, s') => cm_throw cm e s'
       end.

(** In [ignore_events] the [yield] stands in no [try] statement: an
    exception thrown in at it leaves the generator at once. *)
Definition ignore_events (em : emitter) : context_manager :=
  {| cm_enter := pause; cm_exit := resume em; cm_throw := λ e, raise e |}.

(** *** Helpers *)

(** [list_dir(path, files, dirs)]: the names under [path] that are regular
    files (when [files]) or directories (when [dirs]). *)
Definition list_dir (p : path) (files dirs : bool) : M (list string) :=
  names ← os_listdir p;
  λ s, (Ok (List.filter
              (λ f, files && is_file (fs s) (os_path_join p f)
                    || dirs && is_dir (fs s) (os_path_join p f)) names), s).

Definition create_track_dirs (carDir : path) : M unit :=
  for_each ACC_TRACK_FOLDERS (λ track,
    let targetPath := os_path_join carDir track in
    d ← os_path_isdir targetPath;
    if negb d then os_mkdir targetPath else ret tt).

(** *** The event handler *)

(** The statements inside the [with] of [EventHandler.on_modified].  The
    local [setupPath] is bound by the file branch only ([None]: not bound);
    [setupName] is Python's [None] in the directory branch.  The early
    [return] and the [continue]s are the [ret tt] branches. *)
Definition on_modified_block (event : FileSystemEvent) : M unit :=
  let '(trackDir, setupPath, setupName) :=
    if is_directory event
    then (src_path event, None, None)
    else (os_path_dirname (src_path event),
          Some (src_path event),
          Some (os_path_basename (src_path event))) in
  let '(carDir, trackName) := os_path_split trackDir in
  let '(_, carName) := os_path_split carDir in
  if decide (carName = "Setups") then ret tt else
  create_track_dirs carDir ;;
  if is_directory event then
    setups ← list_dir trackDir true false;
    for_each ACC_TRACK_FOLDERS (λ track,
      if decide (track = trackName) then ret tt else
      for_each setups (λ setup,
        let targetPath := os_path_join (os_path_join carDir track) setup in
        b ← os_path_isfile targetPath;
        if negb b
        then (src ← read_local setupPath; shutil_copy src targetPath)
        else ret tt) ;;
      let targetPath := os_path_join carDir track in
      trackSetups ← list_dir targetPath true false;
      for_each trackSetups (λ setup,
        if bool_decide (setup ∈ setups) then ret tt
        else os_remove (os_path_join targetPath setup)))
  else
    for_each ACC_TRACK_FOLDERS (λ track,
      if decide (track = trackName) then ret tt else
      name ← as_str setupName;
      let targetPath := os_path_join (os_path_join carDir track) name in
      src ← read_local setupPath;
      shutil_copyfile src targetPath).

(** [EventHandler.on_modified]: the block runs inside
    [self._observer.ignore_events()], beside the emitter thread. *)
Definition on_modified (em : emitter) (event : FileSystemEvent) : M unit :=
  with_ (ignore_events em) (concurrently (during_block em) (on_modified_block event)).

(** *** Dispatch *)

(** [FileSystemEventHandler.dispatch]: the handler overrides [on_modified]
    only; the other callbacks are the base class's, which do nothing. *)
Definition handler_dispatch (em : emitter) (e : FileSystemEvent) : M unit :=
  match event_type e with
  | Modified => on_modified em e
  | _ => ret tt
  end.

(** [Observer.dispatch_events]: take one event from the queue and hand it to
    the handler; with an empty queue nothing is dispatched. *)
Definition Observer_dispatch_events (em : emitter) : M unit := λ s,
  match event_queue s with
  | [] => (Ok tt, s)
  | e :: q => handler_dispatch em e (log_obs (ADispatch e) (set_queue q s))
  end.

Definition dispatch_events (em : emitter) : M unit := λ s,
  if negb (paused s) then Observer_dispatch_events em s else (Ok tt, s).

(** *** The bulk initializer *)

(** A [for] loop whose body appends to a list declared outside it. *)
Fixpoint for_fold {A B} (l : list A) (acc : B) (body : A → B → M B) : M B :=
  match l with
  | [] => ret acc
  | x :: l' => acc' ← body x acc; for_fold l' acc' body
  end.

(** The body of [init]'s loop over the cars. *)
Definition init_car (setupsPath : path) (car : string) : M unit :=
  let carPath := os_path_join setupsPath car in
  create_track_dirs carPath ;;
  setupPaths ← for_fold ACC_TRACK_FOLDERS [] (λ track setupPaths,
    let trackPath := os_path_join carPath track in
    setups ← list_dir trackPath true false;
    for_fold setups setupPaths (λ setup setupPaths,
      let newName := track +:+ "-" +:+ setup in
      let sourcePath := os_path_join trackPath setup in
      let targetPath := os_path_join trackPath newName in
      shutil_move sourcePath targetPath ;;
      ret (setupPaths ++ [targetPath])));
  for_each setupPaths (λ setupPath,
    for_each ACC_TRACK_FOLDERS (λ track,
      let trackPath := os_path_join carPath track in
      let targetPath := os_path_join trackPath (os_path_basename setupPath) in
      if decide (setupPath = targetPath) then ret tt
      else shutil_copyfile setupPath targetPath)).

Definition init (setupsPath : path) : M unit :=
  cars ← list_dir setupsPath false true;
  for_each cars (init_car setupsPath).

(** ** Concrete file systems used below *)

Definition Root : path := ["C:"; "Users"; "driver"; "Setups"].
Definition Car : path := Root ++ ["ferrari_488_gt3"].

Definition base_fs : gmap path node :=
  list_to_map
    [ ([], Dir); (["C:"], Dir); (["C:"; "Users"], Dir);
      (["C:"; "Users"; "driver"], Dir); (Root, Dir); (Car, Dir) ].

Definition with_tracks (m : gmap path node) : gmap path node :=
  foldr (λ t acc, <[Car ++ [t] := Dir]> acc) m ACC_TRACK_FOLDERS.

Definition mk_state (m : gmap path node) : state :=
  {| fs := m; ops := []; is_paused := None; event_queue := [];
     timeout := 1%N; obs_log := [] |}.

Definition quiet : emitter := {| during_block := []; during_sleep := [] |}.

Definition bytes1 : list byte := [x7b; x7d].
Definition bytes2 : list byte := [x5b; x5d].

(** ** Definitions used in the statements and proofs *)

(** What [list_dir] returns, as a function of the file system. *)
Definition listing (m : gmap path node) (p : path) (files dirs : bool) : list string :=
  List.filter (λ f, files && is_file m (os_path_join p f)
                    || dirs && is_dir m (os_path_join p f)) (dir_entries m p).

(** The loop of [create_track_dirs] over any list of track names. *)
Definition ensure_loop (carDir : path) (l : list string) : M unit :=
  for_each l (λ track,
    let targetPath := os_path_join carDir track in
    d ← os_path_isdir targetPath;
    if negb d then os_mkdir targetPath else ret tt).


(** The track directory and the car segment [on_modified] resolves an event
    to (its locals [trackDir] and [carName]). *)
Definition event_trackDir (event : FileSystemEvent) : path :=
  if is_directory event then src_path event else os_path_dirname (src_path event).

Definition event_carName (event : FileSystemEvent) : string :=
  (os_path_split (os_path_split (event_trackDir event)).1).2.

(** The loop of the directory branch of [on_modified] over any list of
    track names, and the loop of its file branch; [setupPath] and
    [setupName] are the handler's locals. *)
Definition directory_loop (setupPath : option path) (carDir : path)
    (trackName : string) (setups : list string) (l : list string) : M unit :=
  for_each l (λ track,
    if decide (track = trackName) then ret tt else
    for_each setups (λ setup,
      let targetPath := os_path_join (os_path_join carDir track) setup in
      b ← os_path_isfile targetPath;
      if negb b
      then (src ← read_local setupPath; shutil_copy src targetPath)
      else ret tt) ;;
    let targetPath := os_path_join carDir track in
    trackSetups ← list_dir targetPath true false;
    for_each trackSetups (λ setup,
      if bool_decide (setup ∈ setups) then ret tt
      else os_remove (os_path_join targetPath setup))).

Definition file_loop (setupPath : option path) (setupName : option string)
    (carDir : path) (trackName : string) (l : list string) : M unit :=
  for_each l (λ track,
    if decide (track = trackName) then ret tt else
    name ← as_str setupName;
    let targetPath := os_path_join (os_path_join carDir track) name in
    src ← read_local setupPath;
    shutil_copyfile src targetPath).

(** A property of the state that a call keeps, whatever its outcome. *)
Definition preserves {A} (P : state → Prop) (m : M A) : Prop :=
  ∀ s r s', m s = (r, s') → P s → P s'.

(** All fifteen track directories of [Car], and one setup in each. *)
Definition with_setup (name : string) (data : list byte) (m : gmap path node)
    : gmap path node :=
  foldr (λ t acc, <[Car ++ [t; name] := File data]> acc) m ACC_TRACK_FOLDERS.

Definition dir_event (p : path) : FileSystemEvent :=
  {| event_type := Modified; src_path := p; is_directory := true |}.

Definition file_event (p : path) : FileSystemEvent :=
  {| event_type := Modified; src_path := p; is_directory := false |}.

(** A new setup [a.json] in [monza], nothing in the other tracks. *)
Definition fs_new_setup : gmap path node :=
  <[Car ++ ["monza"; "a.json"] := File bytes1]> (with_tracks base_fs).

(** Every track holds [b.json]; in [monza] it was renamed to [a.json]. *)
Definition fs_renamed_setup : gmap path node :=
  <[Car ++ ["monza"; "a.json"] := File bytes2]>
    (delete (Car ++ ["monza"; "b.json"])
       (with_setup "b.json" bytes2 (with_tracks base_fs))).

(** Every track holds [a.json] and [b.json]; [b.json] was removed from
    [monza]. *)
Definition fs_removed_setup : gmap path node :=
  delete (Car ++ ["monza"; "b.json"])
    (with_setup "b.json" bytes2 (with_setup "a.json" bytes1 (with_tracks base_fs))).

(** The two loops of [init] for one car, over any list of track names:
    the renaming loop with its accumulator [setupPaths], and the copies of
    one renamed setup. *)
Definition rename_loop (carPath : path) (l : list string) (acc : list path)
    : M (list path) :=
  for_fold l acc (λ track setupPaths,
    let trackPath := os_path_join carPath track in
    setups ← list_dir trackPath true false;
    for_fold setups setupPaths (λ setup setupPaths,
      let newName := track +:+ "-" +:+ setup in
      let sourcePath := os_path_join trackPath setup in
      let targetPath := os_path_join trackPath newName in
      shutil_move sourcePath targetPath ;;
      ret (setupPaths ++ [targetPath]))).

Definition copy_loop (carPath setupPath : path) (l : list string) : M unit :=
  for_each l (λ track,
    let trackPath := os_path_join carPath track in
    let targetPath := os_path_join trackPath (os_path_basename setupPath) in
    if decide (setupPath = targetPath) then ret tt
    else shutil_copyfile setupPath targetPath).

(** The scenario of the bulk initializer: one car under [Root] whose only
    setup is [setup1.json] in [monza]; the track directories other than
    [monza] do not exist yet. *)
Definition fs_single_setup (data : list byte) : gmap path node :=
  <[Car ++ ["monza"; "setup1.json"] := File data]> (<[Car ++ ["monza"] := Dir]> base_fs).

Definition tracks_before_monza : list string :=
  [ "Barcelona"; "brands_hatch"; "Hungaroring"; "Kyalami"; "Laguna_Seca"; "misano" ].

Definition tracks_after_monza : list string :=
  [ "mount_panorama"; "nurburgring"; "Paul_Ricard"; "Silverstone"; "Spa";
    "Suzuka"; "Zandvoort"; "Zolder" ].

(** What the setup listing of each track is when the car's only setup is
    [setup1.json] in [monza]. *)
Definition only_setup1_in_monza (m : gmap path node) (carPath : path) : Prop :=
  Forall (λ t, listing m (os_path_join carPath t) true false
               = if decide (t = "monza") then ["setup1.json"] else [])
         ACC_TRACK_FOLDERS.

(** The body of [init]'s loop over the cars, from the car's path. *)
Definition init_car_body (carPath : path) : M unit :=
  create_track_dirs carPath ;;
  setupPaths ← rename_loop carPath ACC_TRACK_FOLDERS [];
  for_each setupPaths (λ setupPath, copy_loop carPath setupPath ACC_TRACK_FOLDERS).

(** The two inner loops of the directory branch for one target track. *)
Definition copy_missing (setupPath : option path) (carDir : path) (track : string)
    (setups : list string) : M unit :=
  for_each setups (λ setup,
    let targetPath := os_path_join (os_path_join carDir track) setup in
    b ← os_path_isfile targetPath;
    if negb b
    then (src ← read_local setupPath; shutil_copy src targetPath)
    else ret tt).

Definition remove_deleted (carDir : path) (track : string)
    (setups trackSetups : list string) : M unit :=
  for_each trackSetups (λ setup,
    if bool_decide (setup ∈ setups) then ret tt
    else os_remove (os_path_join (os_path_join carDir track) setup)).

Definition is_copy (o : fs_op) : bool :=
  match o with OpCopyfile _ _ => true | _ => false end.

(** [p] is [q] or lies below it. *)
Definition under (q p : path) : Prop := ∃ r, p = q ++ r.

(** A call that changes the file system only at and below [q], and never
    forgets an operation already recorded. *)
Definition changes_only_under {A} (q : path) (m : M A) : Prop :=
  ∀ s r s', m s = (r, s') →
    (∀ p, ¬ under q p → fs s' !! p = fs s !! p) ∧ (∀ o, o ∈ ops s → o ∈ ops s').

(** *** The observer thread *)

(** The emitter thread puts the events it observed on the queue. *)
Definition emitter_puts (evs : list FileSystemEvent) : M unit := λ s,
  (Ok tt, set_queue (event_queue s ++ evs) s).

(** The observer thread started by [main] ([observer.start()]): the watch
    library calls [dispatch_events] again and again until the observer is
    stopped; an exception that leaves a handler ends the thread.  A round
    is what the emitter queued since the previous call, and what it queues
    during this one. *)
Fixpoint observer_run (rounds : list (list FileSystemEvent * emitter)) : M unit :=
  match rounds with
  | [] => ret tt
  | (evs, em) :: rest =>
      emitter_puts evs ;; dispatch_events em ;; observer_run rest
  end.

(** A call whose completed operations, appended to the record, all
    satisfy [P]. *)
Definition appends {A} (P : fs_op → Prop) (m : M A) : Prop :=
  ∀ s r s', m s = (r, s') → ∃ new, ops s' = ops s ++ new ∧ Forall P new.

(** The operations a directory event may perform: creating a known
    track's directory, removing a file from a known track other than the
    source.  And those of a file event: creating a known track's directory,
    copying the source to its name in a known track other than its own. *)
Definition dir_event_op (carDir : path) (trackName : string) (o : fs_op) : Prop :=
  (∃ t, t ∈ ACC_TRACK_FOLDERS ∧ o = OpMkdir (os_path_join carDir t))
  ∨ (∃ t x, t ∈ ACC_TRACK_FOLDERS ∧ t ≠ trackName
            ∧ o = OpRemove (os_path_join (os_path_join carDir t) x)).

Definition file_event_op (carDir : path) (trackName : string) (src : path)
    (name : string) (o : fs_op) : Prop :=
  (∃ t, t ∈ ACC_TRACK_FOLDERS ∧ o = OpMkdir (os_path_join carDir t))
  ∨ (∃ t, t ∈ ACC_TRACK_FOLDERS ∧ t ≠ trackName
          ∧ o = OpCopyfile src (os_path_join (os_path_join carDir t) name)).

(** The known tracks whose directory is missing under [carDir]. *)
Definition missing_tracks (m : gmap path node) (carDir : path) (l : list string)
    : list string :=
  List.filter (λ t, negb (is_dir m (os_path_join carDir t))) l.

(** A car directory in which [brands_hatch] is a regular file, and one
    that holds a stray folder beside the tracks. *)
Definition fs_track_is_file : gmap path node :=
  <[Car ++ ["brands_hatch"] := File bytes1]> base_fs.

Definition fs_stray_folder : gmap path node :=
  <[Car ++ ["backup"; "a.json"] := File bytes1]>
    (<[Car ++ ["backup"] := Dir]> (with_tracks base_fs)).

(** One car whose only setup is [wet.json] in [Spa]. *)
Definition fs_spa_setup : gmap path node :=
  <[Car ++ ["Spa"; "wet.json"] := File bytes2]> (<[Car ++ ["Spa"] := Dir]> base_fs).

(** *** Events of the engine's own writes *)

#[global] Instance event_kind_eq_dec : EqDecision event_kind.
Proof. solve_decision. Defined.

#[global] Instance FileSystemEvent_eq_dec : EqDecision FileSystemEvent.
Proof. solve_decision. Defined.

#[global] Instance fs_op_eq_dec : EqDecision fs_op.
Proof. solve_decision. Defined.






(** * Properties *)

(** A goal [Forall P ACC_TRACK_FOLDERS] on a concrete state, one track at
    a time. *)
Ltac each_track tac :=
  unfold ACC_TRACK_FOLDERS;
  repeat (apply Forall_cons; split; [tac|]); constructor.

(** ** Paths *)

Lemma os_path_split_join (p : path) (name : string) :
  os_path_split (os_path_join p name) = (p, name).
Proof.
  unfold os_path_split, os_path_join, os_path_dirname, os_path_basename.
  by rewrite removelast_last, last_last.
Qed.

Lemma os_path_join_inj (p q : path) (a b : string) :
  os_path_join p a = os_path_join q b → p = q ∧ a = b.
Proof. unfold os_path_join. intros H. by apply app_inj_tail in H. Qed.

Lemma os_path_join_length (p : path) (a : string) :
  length (os_path_join p a) = S (length p).
Proof. unfold os_path_join. rewrite length_app. simpl. lia. Qed.

Lemma os_path_join_ne_self (p : path) (a : string) : os_path_join p a ≠ p.
Proof. intros H. apply (f_equal length) in H. rewrite os_path_join_length in H. lia. Qed.

Lemma os_path_join2_ne_join (p : path) (a b c : string) :
  os_path_join (os_path_join p a) b ≠ os_path_join p c.
Proof.
  intros H. apply os_path_join_inj in H as [H _].
  by apply os_path_join_ne_self in H.
Qed.

(** ** Directory listings *)

Lemma strip_prefix_Some (p k r : path) : strip_prefix p k = Some r ↔ k = p ++ r.
Proof.
  revert k. induction p as [|a p IH]; intros k; simpl.
  - split; [by intros [= ->] | by intros ->].
  - destruct k as [|b k]; [split; [done | by intros [=]] |].
    destruct (decide (a = b)) as [->|Hne].
    + rewrite IH. split; [by intros -> | by intros [= ->]].
    + split; [done | intros [= -> _]; done].
Qed.

Lemma entry_name_Some (p k : path) (n : string) :
  entry_name p k = Some n ↔ k = os_path_join p n.
Proof.
  unfold entry_name, os_path_join. split.
  - destruct (strip_prefix p k) as [[|a [|b r]]|] eqn:E; try done.
    intros [= ->]. by apply strip_prefix_Some.
  - intros ->. by rewrite (proj2 (strip_prefix_Some p (p ++ [n]) [n]) eq_refl).
Qed.

Lemma elem_of_dir_entries (m : gmap path node) (p : path) (n : string) :
  n ∈ dir_entries m p ↔ is_Some (m !! os_path_join p n).
Proof.
  unfold dir_entries. rewrite list_elem_of_omap. split.
  - intros [[k v] [Hin Hn]]. simpl in Hn.
    apply entry_name_Some in Hn as ->.
    apply elem_of_map_to_list in Hin. eauto.
  - intros [v Hv]. exists (os_path_join p n, v). split.
    + by apply elem_of_map_to_list.
    + simpl. by apply entry_name_Some.
Qed.

Lemma NoDup_dir_entries (m : gmap path node) (p : path) : NoDup (dir_entries m p).
Proof.
  unfold dir_entries.
  assert (Hnd : NoDup (map_to_list m).*1) by apply NoDup_fst_map_to_list.
  induction (map_to_list m) as [|[k v] l IH]; simpl; [constructor|].
  apply NoDup_cons in Hnd as [Hk Hnd].
  destruct (entry_name p k) as [n|] eqn:E; [|by apply IH].
  apply NoDup_cons. split; [|by apply IH].
  intros Hin. apply list_elem_of_omap in Hin as [[k' v'] [Hin' Hn']].
  simpl in Hn'. apply entry_name_Some in E, Hn'. subst.
  apply Hk. apply list_elem_of_fmap. by exists (os_path_join p n, v').
Qed.


Lemma list_dir_eq (p : path) (files dirs : bool) (s : state) :
  list_dir p files dirs s =
  match fs s !! p with
  | None => (Raise FileNotFoundError, s)
  | Some (File _) => (Raise NotADirectoryError, s)
  | Some Dir => (Ok (listing (fs s) p files dirs), s)
  end.
Proof.
  unfold list_dir, bind, os_listdir. by destruct (fs s !! p) as [[]|].
Qed.

Lemma elem_of_listing_files (m : gmap path node) (p : path) (n : string) :
  n ∈ listing m p true false ↔ is_file m (os_path_join p n) = true.
Proof.
  unfold listing. rewrite list_elem_of_In, filter_In, <- list_elem_of_In.
  rewrite elem_of_dir_entries. simpl. rewrite orb_false_r.
  unfold is_file. destruct (m !! os_path_join p n) as [[]|]; split.
  all: try (by intros [_ ?]); try done; try (by intros _; eauto).
  all: by intros [[? [=]] _].
Qed.

Lemma elem_of_listing_dirs (m : gmap path node) (p : path) (n : string) :
  n ∈ listing m p false true ↔ is_dir m (os_path_join p n) = true.
Proof.
  unfold listing. rewrite list_elem_of_In, filter_In, <- list_elem_of_In.
  rewrite elem_of_dir_entries. simpl.
  unfold is_dir. destruct (m !! os_path_join p n) as [[]|]; split.
  all: try (by intros [_ ?]); try done; try (by intros _; eauto).
  all: by intros [[? [=]] _].
Qed.

Lemma NoDup_listing (m : gmap path node) (p : path) (files dirs : bool) :
  NoDup (listing m p files dirs).
Proof.
  unfold listing. apply NoDup_ListNoDup, List.NoDup_filter, NoDup_ListNoDup.
  apply NoDup_dir_entries.
Qed.

Lemma NoDup_singleton_eq {A} (l : list A) (a : A) :
  NoDup l → (∀ x, x ∈ l ↔ x = a) → l = [a].
Proof.
  intros Hnd H. destruct l as [|x l].
  - exfalso. by apply (not_elem_of_nil a), H.
  - assert (x = a) as -> by (apply H; left).
    apply NoDup_cons in Hnd as [Hx _].
    destruct l as [|y l]; [done|].
    assert (y = a) as -> by (apply H; right; left).
    exfalso. apply Hx. left.
Qed.

Lemma nil_of_no_elem {A} (l : list A) : (∀ x, x ∉ l) → l = [].
Proof. destruct l as [|x l]; [done|]. intros H. exfalso. apply (H x). left. Qed.

(** ** The directory ensurer *)


Lemma create_track_dirs_loop (carDir : path) :
  create_track_dirs carDir = ensure_loop carDir ACC_TRACK_FOLDERS.
Proof. reflexivity. Qed.

Lemma ensure_loop_cons (carDir : path) (t : string) (l : list string) (s : state) :
  ensure_loop carDir (t :: l) s =
  if is_dir (fs s) (os_path_join carDir t) then ensure_loop carDir l s
  else match os_mkdir (os_path_join carDir t) s with
       | (Ok _, s') => ensure_loop carDir l s'
       | (Raise e, s') => (Raise e, s')
       end.
Proof.
  unfold ensure_loop at 1. simpl. unfold bind at 1 2, os_path_isdir. simpl.
  by destruct (is_dir (fs s) (os_path_join carDir t)).
Qed.

Lemma os_mkdir_inv (p : path) (s s' : state) (r : outcome unit) :
  os_mkdir p s = (r, s') →
  (r = Ok tt ∧ fs s !! p = None ∧ fs s !! os_path_dirname p = Some Dir
   ∧ s' = set_fs (<[p := Dir]> (fs s)) (OpMkdir p) s)
  ∨ ((∃ e, r = Raise e) ∧ s' = s).
Proof.
  unfold os_mkdir. intros H.
  destruct (fs s !! os_path_dirname p) as [[|]|]; simplify_eq; eauto.
  destruct (fs s !! p); simplify_eq; eauto 10.
Qed.

(** Entries that exist are never touched by the ensurer. *)
Lemma ensure_loop_extends (carDir : path) (l : list string) (s s' : state)
    (r : outcome unit) (p : path) (n : node) :
  ensure_loop carDir l s = (r, s') → fs s !! p = Some n → fs s' !! p = Some n.
Proof.
  revert s. induction l as [|t l IH]; intros s H Hp.
  - by injection H as <- <-.
  - rewrite ensure_loop_cons in H.
    destruct (is_dir (fs s) (os_path_join carDir t)); [by eapply IH|].
    destruct (os_mkdir (os_path_join carDir t) s) as [[[]|e] s1] eqn:E.
    + apply os_mkdir_inv in E as [(_ & Hnone & _ & ->)|[[e [=]] _]].
      eapply IH; [done|]. simpl. rewrite lookup_insert_ne; [done|congruence].
    + apply os_mkdir_inv in E as [([=] & _)|[_ ->]]. by injection H as <- <-.
Qed.

(** The only entries it adds are track directories that were missing. *)
Lemma ensure_loop_changes (carDir : path) (l : list string) (s s' : state)
    (r : outcome unit) (p : path) :
  ensure_loop carDir l s = (r, s') →
  fs s' !! p = fs s !! p
  ∨ (∃ t, t ∈ l ∧ p = os_path_join carDir t ∧ fs s !! p = None ∧ fs s' !! p = Some Dir).
Proof.
  revert s. induction l as [|t l IH]; intros s H.
  - injection H as <- <-. by left.
  - rewrite ensure_loop_cons in H.
    destruct (is_dir (fs s) (os_path_join carDir t)).
    { destruct (IH _ H) as [?|(t' & ? & ? & ? & ?)]; [by left|].
      right. exists t'. split_and!; try done. by right. }
    destruct (os_mkdir (os_path_join carDir t) s) as [[[]|e] s1] eqn:E.
    + apply os_mkdir_inv in E as [(_ & Hnone & _ & ->)|[[e [=]] _]].
      destruct (decide (p = os_path_join carDir t)) as [->|Hne].
      * right. exists t. split_and!; try done; [by left|].
        eapply ensure_loop_extends; [done|]. simpl. by rewrite lookup_insert_eq.
      * destruct (IH _ H) as [Heq|(t' & ? & ? & Hn & ?)].
        -- left. rewrite Heq. simpl. by rewrite lookup_insert_ne.
        -- right. exists t'. split_and!; try done; [by right|].
           simpl in Hn. by rewrite lookup_insert_ne in Hn.
    + apply os_mkdir_inv in E as [([=] & _)|[_ ->]]. injection H as <- <-. by left.
Qed.

(** Running it again from the state it produced repeats the outcome and
    changes nothing: no entry, no recorded operation. *)
Lemma ensure_loop_rerun (carDir : path) (l : list string) (s s' : state)
    (r : outcome unit) :
  ensure_loop carDir l s = (r, s') → ensure_loop carDir l s' = (r, s').
Proof.
  revert s. induction l as [|t l IH]; intros s H.
  - by injection H as <- <-.
  - rewrite ensure_loop_cons in H. rewrite ensure_loop_cons.
    destruct (is_dir (fs s) (os_path_join carDir t)) eqn:Hd.
    + assert (is_dir (fs s') (os_path_join carDir t) = true) as ->; [|by eapply IH].
      unfold is_dir in *.
      destruct (fs s !! os_path_join carDir t) as [[]|] eqn:E; try done.
      by rewrite (ensure_loop_extends _ _ _ _ _ _ _ H E).
    + destruct (os_mkdir (os_path_join carDir t) s) as [[[]|e] s1] eqn:E.
      * apply os_mkdir_inv in E as [(_ & _ & _ & ->)|[[e [=]] _]].
        assert (is_dir (fs s') (os_path_join carDir t) = true) as ->; [|by eapply IH].
        unfold is_dir.
        rewrite (ensure_loop_extends _ _ _ _ _ (os_path_join carDir t) Dir H); [done|].
        simpl. by rewrite lookup_insert_eq.
      * injection H as <- <-.
        pose proof E as E'. apply os_mkdir_inv in E' as [([=] & _)|[_ ->]].
        by rewrite Hd, E.
Qed.

(** In a car directory where no track name is taken by a regular file the
    ensurer succeeds, and every track directory exists afterwards. *)
Lemma ensure_loop_ok (carDir : path) (l : list string) (s : state) :
  is_dir (fs s) carDir = true →
  Forall (λ t, is_file (fs s) (os_path_join carDir t) = false) l →
  ∃ s', ensure_loop carDir l s = (Ok tt, s')
        ∧ Forall (λ t, is_dir (fs s') (os_path_join carDir t) = true) l.
Proof.
  revert s. induction l as [|t l IH]; intros s Hcar Hfree.
  - exists s. split; [done | constructor].
  - apply Forall_cons in Hfree as [Ht Hfree].
    rewrite ensure_loop_cons.
    destruct (is_dir (fs s) (os_path_join carDir t)) eqn:Hd.
    + destruct (IH s Hcar Hfree) as (s' & Hrun & Hall).
      exists s'. split; [done|]. constructor; [|done].
      unfold is_dir in *.
      destruct (fs s !! os_path_join carDir t) as [[]|] eqn:E; try done.
      by rewrite (ensure_loop_extends _ _ _ _ _ _ _ Hrun E).
    + assert (Hnone : fs s !! os_path_join carDir t = None).
      { unfold is_dir, is_file in *.
        by destruct (fs s !! os_path_join carDir t) as [[]|]. }
      assert (Hpar : fs s !! carDir = Some Dir).
      { unfold is_dir in Hcar. by destruct (fs s !! carDir) as [[]|]. }
      unfold os_mkdir.
      replace (os_path_dirname (os_path_join carDir t)) with carDir
        by (pose proof (os_path_split_join carDir t) as E; by injection E as -> _).
      rewrite Hpar, Hnone.
      set (s1 := set_fs _ _ s).
      destruct (IH s1) as (s' & Hrun & Hall).
      * unfold is_dir. simpl. rewrite lookup_insert_ne; [by rewrite Hpar|].
        apply os_path_join_ne_self.
      * eapply Forall_impl; [exact Hfree|]. intros t' Ht'. simpl in *.
        unfold is_file in *. simpl.
        destruct (decide (os_path_join carDir t = os_path_join carDir t')) as [<-|Hne].
        -- by rewrite lookup_insert_eq.
        -- by rewrite lookup_insert_ne.
      * exists s'. split; [done|]. constructor; [|done].
        unfold is_dir.
        rewrite (ensure_loop_extends _ _ _ _ _ (os_path_join carDir t) Dir Hrun); [done|].
        simpl. by rewrite lookup_insert_eq.
Qed.

(** ** The handler's two branches *)

Lemma on_modified_block_directory (event : FileSystemEvent) :
  is_directory event = true →
  on_modified_block event =
  let trackDir := src_path event in
  let carDir := os_path_dirname trackDir in
  if decide (event_carName event = "Setups") then ret tt else
  create_track_dirs carDir ;;
  setups ← list_dir trackDir true false;
  directory_loop None carDir (os_path_basename trackDir) setups ACC_TRACK_FOLDERS.
Proof.
  intros H. unfold on_modified_block, event_carName, event_trackDir.
  rewrite H. reflexivity.
Qed.

Lemma on_modified_block_file (event : FileSystemEvent) :
  is_directory event = false →
  on_modified_block event =
  let trackDir := os_path_dirname (src_path event) in
  let carDir := os_path_dirname trackDir in
  if decide (event_carName event = "Setups") then ret tt else
  create_track_dirs carDir ;;
  file_loop (Some (src_path event)) (Some (os_path_basename (src_path event)))
    carDir (os_path_basename trackDir) ACC_TRACK_FOLDERS.
Proof.
  intros H. unfold on_modified_block, event_carName, event_trackDir.
  rewrite H. reflexivity.
Qed.

(** ** Invariants of calls *)

Section Preserves.
Context (P : state → Prop).

Lemma preserves_ret {A} (a : A) : preserves P (ret a).
Proof. intros s r s' [= <- <-]. done. Qed.

Lemma preserves_raise {A} (e : exn) : preserves P (@raise A e).
Proof. intros s r s' [= <- <-]. done. Qed.

Lemma preserves_bind {A B} (m : M A) (f : A → M B) :
  preserves P m → (∀ a, preserves P (f a)) → preserves P (bind m f).
Proof.
  intros Hm Hf s r s' H HP. unfold bind in H.
  destruct (m s) as [[a|e] s1] eqn:E.
  - eapply Hf; [exact H|]. by eapply Hm.
  - injection H as <- <-. by eapply Hm.
Qed.

Lemma preserves_bind_raise {A B} (e : exn) (f : A → M B) :
  preserves P (bind (raise e) f).
Proof. intros s r s' [= <- <-]. done. Qed.

Lemma preserves_for_each {A} (l : list A) (body : A → M unit) :
  (∀ x, x ∈ l → preserves P (body x)) → preserves P (for_each l body).
Proof.
  induction l as [|x l IH]; intros Hbody; simpl.
  - apply preserves_ret.
  - apply preserves_bind.
    + apply Hbody. left.
    + intros _. apply IH. intros y Hy. apply Hbody. by right.
Qed.

Lemma preserves_pure {A} (m : M A) :
  (∀ s, (m s).2 = s) → preserves P m.
Proof. intros Hm s r s' H HP. specialize (Hm s). rewrite H in Hm. by subst. Qed.

Lemma preserves_isfile (p : path) : preserves P (os_path_isfile p).
Proof. by apply preserves_pure. Qed.

Lemma preserves_isdir (p : path) : preserves P (os_path_isdir p).
Proof. by apply preserves_pure. Qed.

Lemma preserves_list_dir (p : path) (files dirs : bool) :
  preserves P (list_dir p files dirs).
Proof.
  apply preserves_pure. intros s. rewrite list_dir_eq.
  by destruct (fs s !! p) as [[]|].
Qed.
End Preserves.

(** An existing regular file stays as it is under [os.mkdir], and under
    [os.remove] of another path. *)
Lemma preserves_file_mkdir (p q : path) (data : list byte) :
  preserves (λ s, fs s !! p = Some (File data)) (os_mkdir q).
Proof.
  intros s r s' H HP.
  apply os_mkdir_inv in H as [(_ & Hnone & _ & ->)|[_ ->]]; [|done].
  simpl. rewrite lookup_insert_ne; [done|congruence].
Qed.

Lemma preserves_file_remove (p q : path) (data : list byte) :
  p ≠ q → preserves (λ s, fs s !! p = Some (File data)) (os_remove q).
Proof.
  intros Hne s r s' H HP. unfold os_remove in H.
  destruct (fs s !! q) as [[]|]; simplify_eq; try done.
  simpl. by rewrite lookup_delete_ne.
Qed.

(** In the directory branch the local [setupPath] is unbound, so no copy
    is ever made there; the removals spare every name of the source's
    listing.  Hence a file that exists under a listed name is kept. *)
Lemma directory_loop_keeps (carDir : path) (trackName : string)
    (setups l : list string) (track setup : string) (data : list byte) :
  setup ∈ setups →
  preserves (λ s, fs s !! os_path_join (os_path_join carDir track) setup
                  = Some (File data))
            (directory_loop None carDir trackName setups l).
Proof.
  intros Hin. unfold directory_loop. apply preserves_for_each. intros t _.
  destruct (decide (t = trackName)); [apply preserves_ret|].
  apply preserves_bind.
  - apply preserves_for_each. intros x _.
    apply preserves_bind; [apply preserves_isfile|].
    intros b. destruct b; simpl; [apply preserves_ret|].
    apply preserves_bind_raise.
  - intros _. apply preserves_bind; [apply preserves_list_dir|].
    intros trackSetups. apply preserves_for_each. intros x _.
    case_bool_decide as Hx; [apply preserves_ret|].
    apply preserves_file_remove.
    intros Heq. apply os_path_join_inj in Heq as [_ ->]. done.
Qed.

(** ** The handler around its block *)

(** [on_modified] in one equation: pause, the block beside the emitter,
    then [resume] if the block ended normally and nothing if it raised. *)
Lemma on_modified_eq (em : emitter) (event : FileSystemEvent) (s : state) :
  on_modified em event s =
  let blk := on_modified_block event (set_paused true s) in
  let sq := set_queue (event_queue blk.2 ++ during_block em) blk.2 in
  match blk.1 with
  | Ok _ =>
      (Ok tt,
       set_paused false
         (log_obs AClearQueue
            (set_queue []
               (log_obs (ASleep (timeout sq))
                  (set_queue (event_queue sq ++ during_sleep em) sq)))))
  | Raise e => (Raise e, sq)
  end.
Proof.
  unfold on_modified, with_, ignore_events, bind, pause, concurrently. simpl.
  destruct (on_modified_block event (set_paused true s)) as [[[]|e] sb]; reflexivity.
Qed.

Lemma on_modified_fs (em : emitter) (event : FileSystemEvent) (s : state) :
  fs (on_modified em event s).2 = fs (on_modified_block event (set_paused true s)).2
  ∧ ops (on_modified em event s).2 = ops (on_modified_block event (set_paused true s)).2.
Proof.
  rewrite on_modified_eq.
  by destruct (on_modified_block event (set_paused true s)) as [[[]|e] sb].
Qed.

Lemma create_track_dirs_preserves_entry (carDir p : path) (n : node) :
  preserves (λ s, fs s !! p = Some n) (create_track_dirs carDir).
Proof.
  intros s r s' H HP. rewrite create_track_dirs_loop in H.
  by eapply ensure_loop_extends.
Qed.

Lemma on_modified_block_directory_keeps (event : FileSystemEvent) (s : state)
    (track setup : string) (data : list byte) :
  is_directory event = true →
  is_file (fs s) (os_path_join (src_path event) setup) = true →
  fs s !! os_path_join (os_path_join (os_path_dirname (src_path event)) track) setup
    = Some (File data) →
  fs (on_modified_block event s).2
     !! os_path_join (os_path_join (os_path_dirname (src_path event)) track) setup
    = Some (File data).
Proof.
  intros Hdir Hsrc Htgt. rewrite (on_modified_block_directory _ Hdir). simpl.
  destruct (decide (event_carName event = "Setups")); [done|].
  unfold bind at 1.
  destruct (create_track_dirs _ s) as [[[]|e] s1] eqn:E1; simpl;
    [|by eapply create_track_dirs_preserves_entry].
  assert (Htgt1 := create_track_dirs_preserves_entry _ _ _ _ _ _ E1 Htgt).
  assert (Hsrc1 : is_file (fs s1) (os_path_join (src_path event) setup) = true).
  { unfold is_file in *.
    destruct (fs s !! os_path_join (src_path event) setup) as [[d|]|] eqn:E; try done.
    by rewrite (create_track_dirs_preserves_entry _ _ _ _ _ _ E1 E). }
  unfold bind. rewrite list_dir_eq.
  destruct (fs s1 !! src_path event) as [[]|]; try done.
  destruct (directory_loop _ _ _ _ _ s1) as [r2 s2] eqn:E2.
  assert (fs s2 !! os_path_join (os_path_join (os_path_dirname (src_path event)) track) setup
          = Some (File data)).
  { eapply (directory_loop_keeps _ _ _ _ track setup data); [|exact E2|exact Htgt1].
    by apply elem_of_listing_files. }
  by destruct r2.
Qed.

(** ** File system calls leave the observer alone *)

Section Observer_frame.
Context (P : state → Prop).
Context (P_set_fs : ∀ s m o, P s → P (set_fs m o s)).

Lemma preserves_obs_mkdir (p : path) : preserves P (os_mkdir p).
Proof.
  intros s r s' H HP.
  apply os_mkdir_inv in H as [(_ & _ & _ & ->)|[_ ->]]; [by apply P_set_fs|done].
Qed.

Lemma preserves_obs_remove (p : path) : preserves P (os_remove p).
Proof.
  intros s r s' H HP. unfold os_remove in H.
  destruct (fs s !! p) as [[]|]; simplify_eq; try done. by apply P_set_fs.
Qed.

Lemma preserves_obs_copyfile (src dst : path) : preserves P (shutil_copyfile src dst).
Proof.
  intros s r s' H HP. unfold shutil_copyfile in H.
  destruct (fs s !! src) as [[]|]; [| |by simplify_eq];
    (destruct (decide (src = dst)); [by simplify_eq|]); [|by simplify_eq].
  destruct (fs s !! dst) as [[]|];
    destruct (fs s !! os_path_dirname dst) as [[]|]; simplify_eq; try done;
    by apply P_set_fs.
Qed.

Lemma preserves_obs_copy (src dst : path) : preserves P (shutil_copy src dst).
Proof.
  unfold shutil_copy. apply preserves_bind; [apply preserves_isdir|].
  intros d. apply preserves_obs_copyfile.
Qed.

Lemma preserves_obs_create_track_dirs (carDir : path) :
  preserves P (create_track_dirs carDir).
Proof.
  unfold create_track_dirs. apply preserves_for_each. intros t _.
  apply preserves_bind; [apply preserves_isdir|].
  intros []; simpl; [apply preserves_ret|apply preserves_obs_mkdir].
Qed.

Lemma preserves_obs_directory_loop (setupPath : option path) (carDir : path)
    (trackName : string) (setups l : list string) :
  preserves P (directory_loop setupPath carDir trackName setups l).
Proof.
  unfold directory_loop. apply preserves_for_each. intros t _.
  destruct (decide (t = trackName)); [apply preserves_ret|].
  apply preserves_bind.
  - apply preserves_for_each. intros x _.
    apply preserves_bind; [apply preserves_isfile|].
    intros []; simpl; [apply preserves_ret|].
    apply preserves_bind; [destruct setupPath; [apply preserves_ret|apply preserves_raise]|].
    intros src. apply preserves_obs_copy.
  - intros _. apply preserves_bind; [apply preserves_list_dir|].
    intros trackSetups. apply preserves_for_each. intros x _.
    case_bool_decide; [apply preserves_ret|apply preserves_obs_remove].
Qed.

Lemma preserves_obs_file_loop (setupPath : option path) (setupName : option string)
    (carDir : path) (trackName : string) (l : list string) :
  preserves P (file_loop setupPath setupName carDir trackName l).
Proof.
  unfold file_loop. apply preserves_for_each. intros t _.
  destruct (decide (t = trackName)); [apply preserves_ret|].
  apply preserves_bind; [destruct setupName; [apply preserves_ret|apply preserves_raise]|].
  intros name.
  apply preserves_bind; [destruct setupPath; [apply preserves_ret|apply preserves_raise]|].
  intros src. apply preserves_obs_copyfile.
Qed.

Lemma preserves_obs_on_modified_block (event : FileSystemEvent) :
  preserves P (on_modified_block event).
Proof.
  destruct (is_directory event) eqn:Hd.
  - rewrite (on_modified_block_directory _ Hd). simpl.
    destruct (decide _); [apply preserves_ret|].
    apply preserves_bind; [apply preserves_obs_create_track_dirs|]. intros _.
    apply preserves_bind; [apply preserves_list_dir|]. intros setups.
    apply preserves_obs_directory_loop.
  - rewrite (on_modified_block_file _ Hd). simpl.
    destruct (decide _); [apply preserves_ret|].
    apply preserves_bind; [apply preserves_obs_create_track_dirs|]. intros _.
    apply preserves_obs_file_loop.
Qed.
End Observer_frame.

Lemma on_modified_block_is_paused (event : FileSystemEvent) (s : state) :
  is_paused (on_modified_block event s).2 = is_paused s.
Proof.
  destruct (on_modified_block event s) as [r s'] eqn:E. simpl.
  by eapply (preserves_obs_on_modified_block (λ x, is_paused x = is_paused s)).
Qed.

Lemma on_modified_block_obs_log (event : FileSystemEvent) (s : state) :
  obs_log (on_modified_block event s).2 = obs_log s.
Proof.
  destruct (on_modified_block event s) as [r s'] eqn:E. simpl.
  by eapply (preserves_obs_on_modified_block (λ x, obs_log x = obs_log s)).
Qed.

(** ** The file branch *)

Lemma os_path_dirname_join (p : path) (a : string) :
  os_path_dirname (os_path_join p a) = p.
Proof. pose proof (os_path_split_join p a) as E. by injection E as -> _. Qed.

Lemma os_path_basename_join (p : path) (a : string) :
  os_path_basename (os_path_join p a) = a.
Proof. pose proof (os_path_split_join p a) as E. by injection E as _ ->. Qed.

Lemma shutil_copyfile_ok (src dst : path) (s : state) (data : list byte) :
  src ≠ dst →
  fs s !! src = Some (File data) →
  is_dir (fs s) dst = false →
  is_dir (fs s) (os_path_dirname dst) = true →
  shutil_copyfile src dst s
  = (Ok tt, set_fs (<[dst := File data]> (fs s)) (OpCopyfile src dst) s).
Proof.
  intros Hne Hsrc Hdst Hpar. unfold shutil_copyfile, is_dir in *.
  rewrite Hsrc. destruct (decide (src = dst)); [done|].
  destruct (fs s !! os_path_dirname dst) as [[]|]; try done.
  by destruct (fs s !! dst) as [[]|].
Qed.

Lemma file_loop_cons (src : path) (name : string) (carDir : path)
    (trackName t : string) (l : list string) (s : state) :
  file_loop (Some src) (Some name) carDir trackName (t :: l) s =
  if decide (t = trackName) then file_loop (Some src) (Some name) carDir trackName l s
  else match shutil_copyfile src (os_path_join (os_path_join carDir t) name) s with
       | (Ok _, s') => file_loop (Some src) (Some name) carDir trackName l s'
       | (Raise e, s') => (Raise e, s')
       end.
Proof.
  unfold file_loop at 1. simpl. unfold bind at 1.
  destruct (decide (t = trackName)); [reflexivity|].
  unfold bind at 1. simpl. unfold bind at 1. simpl. reflexivity.
Qed.

Lemma file_loop_ok (src : path) (name : string) (carDir : path) (trackName : string)
    (data : list byte) (l : list string) (s : state) :
  fs s !! src = Some (File data) →
  Forall (λ t, t ≠ trackName →
               src ≠ os_path_join (os_path_join carDir t) name
               ∧ is_dir (fs s) (os_path_join carDir t) = true
               ∧ is_dir (fs s) (os_path_join (os_path_join carDir t) name) = false) l →
  ∃ s', file_loop (Some src) (Some name) carDir trackName l s = (Ok tt, s')
        ∧ Forall (λ t, t ≠ trackName →
                       fs s' !! os_path_join (os_path_join carDir t) name
                         = Some (File data)
                       ∧ OpCopyfile src (os_path_join (os_path_join carDir t) name)
                           ∈ ops s') l
        ∧ (∀ p, fs s' !! p = fs s !! p
                ∨ (∃ t, t ∈ l ∧ t ≠ trackName
                        ∧ p = os_path_join (os_path_join carDir t) name
                        ∧ fs s' !! p = Some (File data)))
        ∧ (∀ o, o ∈ ops s → o ∈ ops s').
Proof.
  revert s. induction l as [|t l IH]; intros s Hsrc Hl.
  - exists s. split_and!; [done|constructor|by left|done].
  - apply Forall_cons in Hl as [Ht Hl].
    rewrite file_loop_cons.
    destruct (decide (t = trackName)) as [->|Hne].
    + destruct (IH s Hsrc Hl) as (s' & Hrun & Hall & Hfr & Hops).
      exists s'. split_and!; try done; [by constructor|].
      intros p. destruct (Hfr p) as [?|(t' & ? & ? & ? & ?)]; [by left|].
      right. exists t'. split_and!; try done. by right.
    + destruct (Ht Hne) as (Hsd & Hpar & Hnd).
      rewrite (shutil_copyfile_ok _ _ _ data); try done;
        [|by rewrite os_path_dirname_join].
      set (dst := os_path_join (os_path_join carDir t) name) in *.
      set (s1 := set_fs _ _ s).
      destruct (IH s1) as (s' & Hrun & Hall & Hfr & Hops).
      * simpl. by rewrite lookup_insert_ne.
      * eapply Forall_impl; [exact Hl|]. intros t' Ht' Hne'.
        destruct (Ht' Hne') as (? & Hd1 & Hd2). split_and!; [done| |].
        -- unfold is_dir in *. simpl. rewrite lookup_insert_ne; [done|].
           apply os_path_join2_ne_join.
        -- unfold is_dir in *. simpl.
           destruct (decide (dst = os_path_join (os_path_join carDir t') name)) as [<-|?].
           ++ by rewrite lookup_insert_eq.
           ++ by rewrite lookup_insert_ne.
      * exists s'. split_and!; [done| | |].
        -- constructor; [|done]. intros _. split.
           ++ destruct (Hfr dst) as [Hx|(_ & _ & _ & _ & Hx)]; [|exact Hx].
              etrans; [exact Hx|]. simpl. by rewrite lookup_insert_eq.
           ++ apply Hops. simpl. apply elem_of_app. right. left.
        -- intros p. destruct (Hfr p) as [Hp|(t' & ? & ? & ? & ?)].
           ++ destruct (decide (dst = p)) as [<-|?].
              ** right. exists t. split_and!; try done; [by left|].
                 rewrite Hp. simpl. by rewrite lookup_insert_eq.
              ** left. rewrite Hp. simpl. by rewrite lookup_insert_ne.
           ++ right. exists t'. split_and!; try done. by right.
        -- intros o Ho. apply Hops. simpl. apply elem_of_app. by left.
Qed.

(** The ensurer in a car directory whose track names are free or taken by
    directories: it succeeds, the track directories exist, and nothing
    below a track directory changes. *)
Lemma create_track_dirs_ok (carDir : path) (s : state) :
  is_dir (fs s) carDir = true →
  Forall (λ t, is_file (fs s) (os_path_join carDir t) = false) ACC_TRACK_FOLDERS →
  ∃ s1, create_track_dirs carDir s = (Ok tt, s1)
        ∧ (∀ t, t ∈ ACC_TRACK_FOLDERS → is_dir (fs s1) (os_path_join carDir t) = true)
        ∧ (∀ t n, fs s1 !! os_path_join (os_path_join carDir t) n
                  = fs s !! os_path_join (os_path_join carDir t) n)
        ∧ (∀ p n, fs s !! p = Some n → fs s1 !! p = Some n).
Proof.
  intros Hcar Hfree. rewrite create_track_dirs_loop.
  destruct (ensure_loop_ok carDir ACC_TRACK_FOLDERS s Hcar Hfree) as (s1 & Hrun & Hall).
  exists s1. split_and!; [done| | |].
  - by apply Forall_forall.
  - intros t n.
    destruct (ensure_loop_changes carDir ACC_TRACK_FOLDERS _ _ _
                (os_path_join (os_path_join carDir t) n) Hrun)
      as [Heq|(t' & _ & Heq & _)]; [done|].
    by apply os_path_join2_ne_join in Heq.
  - intros p n. by eapply ensure_loop_extends.
Qed.

(** ** The bulk initializer *)

Lemma init_car_eq (setupsPath : path) (car : string) :
  init_car setupsPath car = init_car_body (os_path_join setupsPath car).
Proof. reflexivity. Qed.

Lemma for_fold_app {A B} (l1 l2 : list A) (acc : B) (body : A → B → M B) (s : state) :
  for_fold (l1 ++ l2) acc body s =
  match for_fold l1 acc body s with
  | (Ok acc', s') => for_fold l2 acc' body s'
  | (Raise e, s') => (Raise e, s')
  end.
Proof.
  revert acc s. induction l1 as [|x l1 IH]; intros acc s; simpl; [done|].
  unfold bind. destruct (body x acc s) as [[acc'|e] s']; [apply IH|done].
Qed.

Lemma listing_files_nil (m : gmap path node) (p : path) :
  listing m p true false = [] ↔ ∀ n, is_file m (os_path_join p n) = false.
Proof.
  split.
  - intros H n. destruct (is_file m (os_path_join p n)) eqn:E; [|done].
    apply elem_of_listing_files in E. rewrite H in E. by apply not_elem_of_nil in E.
  - intros H. apply nil_of_no_elem. intros n Hn.
    apply elem_of_listing_files in Hn. by rewrite H in Hn.
Qed.

Lemma listing_files_singleton (m : gmap path node) (p : path) (a : string) :
  listing m p true false = [a] ↔ ∀ n, is_file m (os_path_join p n) = true ↔ n = a.
Proof.
  split.
  - intros H n. rewrite <- elem_of_listing_files, H. apply list_elem_of_singleton.
  - intros H. apply NoDup_singleton_eq; [apply NoDup_listing|].
    intros n. by rewrite elem_of_listing_files.
Qed.

Lemma listing_dirs_singleton (m : gmap path node) (p : path) (a : string) :
  listing m p false true = [a] → ∀ n, is_dir m (os_path_join p n) = true ↔ n = a.
Proof.
  intros H n. rewrite <- elem_of_listing_dirs, H. apply list_elem_of_singleton.
Qed.

Lemma shutil_move_ok (src dst : path) (s : state) (data : list byte) :
  src ≠ dst →
  fs s !! src = Some (File data) →
  is_dir (fs s) dst = false →
  is_dir (fs s) (os_path_dirname dst) = true →
  shutil_move src dst s
  = (Ok tt, set_fs (<[dst := File data]> (delete src (fs s))) (OpRename src dst) s).
Proof.
  intros Hne Hsrc Hdst Hpar. unfold shutil_move.
  assert (is_dir (fs s) src = false) as -> by (unfold is_dir; by rewrite Hsrc).
  rewrite Hdst. simpl. rewrite Hsrc. destruct (decide (src = dst)); [done|].
  unfold is_dir in Hpar. by destruct (fs s !! os_path_dirname dst) as [[]|].
Qed.

(** Tracks without setups are passed over by the renaming loop. *)
Lemma rename_loop_empty (carPath : path) (l : list string) (acc : list path) (s : state) :
  Forall (λ t, is_dir (fs s) (os_path_join carPath t) = true
               ∧ listing (fs s) (os_path_join carPath t) true false = []) l →
  rename_loop carPath l acc s = (Ok acc, s).
Proof.
  induction l as [|t l IH]; intros Hl; [done|].
  apply Forall_cons in Hl as [[Hd Hnil] Hl].
  unfold rename_loop. simpl. unfold bind at 1. unfold bind at 1.
  rewrite list_dir_eq. unfold is_dir in Hd.
  destruct (fs s !! os_path_join carPath t) as [[]|]; try done.
  rewrite Hnil. simpl. by apply IH.
Qed.

(** A track with one setup: the setup is renamed and its new path joins
    the accumulator. *)
Lemma rename_loop_one (carPath : path) (t setup : string) (acc : list path)
    (data : list byte) (s : state) :
  let src := os_path_join (os_path_join carPath t) setup in
  let dst := os_path_join (os_path_join carPath t) (t +:+ "-" +:+ setup) in
  src ≠ dst →
  is_dir (fs s) (os_path_join carPath t) = true →
  listing (fs s) (os_path_join carPath t) true false = [setup] →
  fs s !! src = Some (File data) →
  is_dir (fs s) dst = false →
  rename_loop carPath [t] acc s
  = (Ok (acc ++ [dst]),
     set_fs (<[dst := File data]> (delete src (fs s))) (OpRename src dst) s).
Proof.
  intros src dst Hne Hd Hlist Hsrc Hdst.
  unfold rename_loop. simpl. unfold bind at 1. unfold bind at 1.
  rewrite list_dir_eq. pose proof Hd as Hd'. unfold is_dir in Hd'.
  destruct (fs s !! os_path_join carPath t) as [[]|]; try done.
  rewrite Hlist. simpl. unfold bind at 1. unfold bind at 1.
  rewrite (shutil_move_ok _ _ _ data); try done.
  by rewrite os_path_dirname_join.
Qed.

(** The copies of a renamed setup are the file branch of the handler run
    from that setup. *)
Lemma copy_loop_file_loop (carPath : path) (A N : string) (l : list string) (s : state) :
  copy_loop carPath (os_path_join (os_path_join carPath A) N) l s
  = file_loop (Some (os_path_join (os_path_join carPath A) N)) (Some N) carPath A l s.
Proof.
  revert s. induction l as [|t l IH]; intros s; [done|].
  rewrite file_loop_cons. unfold copy_loop. simpl.
  fold (copy_loop carPath (os_path_join (os_path_join carPath A) N) l).
  rewrite os_path_basename_join. unfold bind.
  destruct (decide (t = A)) as [->|Hne].
  - destruct (decide _); [apply IH|done].
  - destruct (decide _) as [Heq|_].
    + apply os_path_join_inj in Heq as [Heq _].
      apply os_path_join_inj in Heq as [_ Heq]. by subst.
    + destruct (shutil_copyfile _ _ s) as [[[]|e] s']; [apply IH|done].
Qed.

Lemma ACC_TRACK_FOLDERS_split :
  ACC_TRACK_FOLDERS = tracks_before_monza ++ ["monza"] ++ tracks_after_monza.
Proof. reflexivity. Qed.

Lemma tracks_before_monza_spec :
  Forall (λ t, t ≠ "monza" ∧ t ∈ ACC_TRACK_FOLDERS) tracks_before_monza.
Proof.
  unfold tracks_before_monza.
  repeat (apply Forall_cons; split; [split; [done|set_solver]|]). constructor.
Qed.

Lemma tracks_after_monza_spec :
  Forall (λ t, t ≠ "monza" ∧ t ∈ ACC_TRACK_FOLDERS) tracks_after_monza.
Proof.
  unfold tracks_after_monza.
  repeat (apply Forall_cons; split; [split; [done|set_solver]|]). constructor.
Qed.

Lemma monza_known : "monza" ∈ ACC_TRACK_FOLDERS.
Proof. set_solver. Qed.

Section Init_single_setup.
Context (carPath : path) (data : list byte) (s : state).

Let src : path := os_path_join (os_path_join carPath "monza") "setup1.json".
Let dst : path := os_path_join (os_path_join carPath "monza") "monza-setup1.json".

Hypothesis Hcar : is_dir (fs s) carPath = true.
Hypothesis Hfree :
  Forall (λ t, is_file (fs s) (os_path_join carPath t) = false) ACC_TRACK_FOLDERS.
Hypothesis Hsrc : fs s !! src = Some (File data).
Hypothesis Honly : only_setup1_in_monza (fs s) carPath.
Hypothesis Hnodir :
  Forall (λ t, is_dir (fs s)
                 (os_path_join (os_path_join carPath t) "monza-setup1.json") = false)
         ACC_TRACK_FOLDERS.

Local Lemma src_ne_dst : src ≠ dst.
Proof. intros H. by apply os_path_join_inj in H as [_ H]. Qed.

(** The files of the car before the run. *)
Local Lemma files_before (t n : string) :
  t ∈ ACC_TRACK_FOLDERS →
  is_file (fs s) (os_path_join (os_path_join carPath t) n) = true →
  t = "monza" ∧ n = "setup1.json".
Proof.
  intros Ht Hf. unfold only_setup1_in_monza in Honly.
  rewrite Forall_forall in Honly. specialize (Honly t Ht).
  apply elem_of_listing_files in Hf. rewrite Honly in Hf.
  destruct (decide (t = "monza")) as [->|_].
  - by apply list_elem_of_singleton in Hf.
  - by apply not_elem_of_nil in Hf.
Qed.

(** After the ensurer. *)
Local Lemma after_ensure :
  ∃ s1, create_track_dirs carPath s = (Ok tt, s1)
        ∧ (∀ t, t ∈ ACC_TRACK_FOLDERS → is_dir (fs s1) (os_path_join carPath t) = true)
        ∧ (∀ t n, fs s1 !! os_path_join (os_path_join carPath t) n
                  = fs s !! os_path_join (os_path_join carPath t) n).
Proof.
  destruct (create_track_dirs_ok carPath s Hcar Hfree) as (s1 & ? & ? & ? & _).
  by exists s1.
Qed.

(** The state after the renaming loop, from the state after the ensurer. *)
Local Lemma after_rename (s1 : state) :
  (∀ t, t ∈ ACC_TRACK_FOLDERS → is_dir (fs s1) (os_path_join carPath t) = true) →
  (∀ t n, fs s1 !! os_path_join (os_path_join carPath t) n
          = fs s !! os_path_join (os_path_join carPath t) n) →
  rename_loop carPath ACC_TRACK_FOLDERS [] s1
  = (Ok [dst], set_fs (<[dst := File data]> (delete src (fs s1))) (OpRename src dst) s1).
Proof.
  intros Hdirs Hsame.
  assert (Hnil1 : ∀ t, t ∈ ACC_TRACK_FOLDERS → t ≠ "monza" →
            listing (fs s1) (os_path_join carPath t) true false = []).
  { intros t Ht Hne. apply listing_files_nil. intros n.
    destruct (is_file (fs s1) _) eqn:E; [|done].
    unfold is_file in E. rewrite Hsame in E.
    by destruct (files_before t n Ht E). }
  rewrite ACC_TRACK_FOLDERS_split. unfold rename_loop.
  rewrite for_fold_app. fold (rename_loop carPath tracks_before_monza [] s1).
  rewrite rename_loop_empty.
  2:{ eapply Forall_impl; [apply tracks_before_monza_spec|].
      intros t [Hne Ht]. split; [by apply Hdirs|by apply Hnil1]. }
  rewrite for_fold_app. fold (rename_loop carPath ["monza"] [] s1).
  rewrite (rename_loop_one carPath "monza" "setup1.json" [] data s1).
  - set (s2 := set_fs (<[dst := File data]> (delete src (fs s1))) (OpRename src dst) s1).
    change (rename_loop carPath tracks_after_monza [dst] s2 = (Ok [dst], s2)).
    rewrite rename_loop_empty; [done|].
    eapply Forall_impl; [apply tracks_after_monza_spec|].
    intros t [Hne Ht]. split.
    + unfold is_dir. simpl.
      rewrite lookup_insert_ne, lookup_delete_ne;
        [by apply Hdirs| |];
        apply os_path_join2_ne_join.
    + apply listing_files_nil. intros n.
      unfold is_file. simpl.
      rewrite lookup_insert_ne, lookup_delete_ne.
      * specialize (Hnil1 t Ht Hne).
        rewrite listing_files_nil in Hnil1. apply Hnil1.
      * intros Heq. apply os_path_join_inj in Heq as [Heq _].
        apply os_path_join_inj in Heq as [_ Heq]. by subst.
      * intros Heq. apply os_path_join_inj in Heq as [Heq _].
        apply os_path_join_inj in Heq as [_ Heq]. by subst.
  - apply src_ne_dst.
  - apply Hdirs, monza_known.
  - apply listing_files_singleton. intros n.
    unfold is_file. rewrite Hsame. fold (is_file (fs s) (os_path_join (os_path_join carPath "monza") n)).
    split.
    + intros Hf. by destruct (files_before "monza" n monza_known Hf).
    + intros ->. unfold is_file. fold src. by rewrite Hsrc.
  - rewrite Hsame. exact Hsrc.
  - unfold is_dir. rewrite Hsame.
    rewrite Forall_forall in Hnodir. apply (Hnodir "monza" monza_known).
Qed.
(** The whole body for the car: every track ends with exactly one setup,
    [monza-setup1.json], holding the bytes of the original. *)
Local Lemma init_car_body_single_setup :
  ∃ s', init_car_body carPath s = (Ok tt, s')
        ∧ Forall (λ t, listing (fs s') (os_path_join carPath t) true false
                         = ["monza-setup1.json"]
                       ∧ fs s' !! os_path_join (os_path_join carPath t)
                                     "monza-setup1.json" = Some (File data))
                 ACC_TRACK_FOLDERS
        ∧ OpRename src dst ∈ ops s'.
Proof.
  destruct after_ensure as (s1 & Hrun1 & Hdirs & Hsame).
  pose proof (after_rename s1 Hdirs Hsame) as Hrun2.
  set (s2 := set_fs (<[dst := File data]> (delete src (fs s1))) (OpRename src dst) s1)
    in Hrun2.
  assert (Hs2 : ∀ t n, os_path_join (os_path_join carPath t) n ≠ dst →
                       os_path_join (os_path_join carPath t) n ≠ src →
            fs s2 !! os_path_join (os_path_join carPath t) n
            = fs s !! os_path_join (os_path_join carPath t) n).
  { intros t n H1 H2. simpl.
    rewrite lookup_insert_ne, lookup_delete_ne; [apply Hsame|done|done]. }
  destruct (file_loop_ok dst "monza-setup1.json" carPath "monza" data
              ACC_TRACK_FOLDERS s2) as (s3 & Hrun3 & Hall3 & Hfr & Hops).
  { simpl. by rewrite lookup_insert_eq. }
  { apply Forall_forall. intros t Ht Hne.
    assert (Hd : dst ≠ os_path_join (os_path_join carPath t) "monza-setup1.json").
    { intros Heq. apply os_path_join_inj in Heq as [Heq _].
      apply os_path_join_inj in Heq as [_ Heq]. by subst. }
    split_and!; [done| |].
    - unfold is_dir. simpl.
      rewrite lookup_insert_ne, lookup_delete_ne;
        [by apply Hdirs| |]; apply os_path_join2_ne_join.
    - unfold is_dir. rewrite Hs2; [|done|].
      + rewrite Forall_forall in Hnodir. by apply Hnodir.
      + intros Heq. by apply os_path_join_inj in Heq as [_ Heq]. }
  assert (Hnew : ∀ t, t ∈ ACC_TRACK_FOLDERS →
            fs s3 !! os_path_join (os_path_join carPath t) "monza-setup1.json"
            = Some (File data)).
  { intros t Ht. destruct (decide (t = "monza")) as [->|Hne].
    - destruct (Hfr dst) as [Hx|(_ & _ & _ & _ & Hx)]; [|exact Hx].
      etrans; [exact Hx|]. simpl. by rewrite lookup_insert_eq.
    - rewrite Forall_forall in Hall3. by apply Hall3. }
  exists s3. split_and!.
  3:{ apply Hops. simpl. apply elem_of_app. right. left. }
  - unfold init_car_body, bind. rewrite Hrun1, Hrun2. simpl.
    unfold bind. unfold dst at 1. rewrite copy_loop_file_loop.
    fold dst. by rewrite Hrun3.
  - apply Forall_forall. intros t Ht. split; [|by apply Hnew].
    apply listing_files_singleton. intros n. split.
    + intros Hf.
      destruct (Hfr (os_path_join (os_path_join carPath t) n))
        as [Hx|(t' & _ & _ & Heq & _)].
      * unfold is_file in Hf. rewrite Hx in Hf.
        destruct (decide (os_path_join (os_path_join carPath t) n = dst)) as [Heq|H1].
        { by apply os_path_join_inj in Heq as [_ Heq]. }
        destruct (decide (os_path_join (os_path_join carPath t) n = src)) as [Heq|H2].
        { rewrite Heq in Hf. simpl in Hf.
          rewrite lookup_insert_ne, lookup_delete_eq in Hf; [done|].
          intros E. symmetry in E. by apply src_ne_dst in E. }
        rewrite Hs2 in Hf by done.
        destruct (files_before t n Ht Hf) as [-> ->]. done.
      * by apply os_path_join_inj in Heq as [_ Heq].
    + intros ->. unfold is_file. by rewrite Hnew.
Qed.
End Init_single_setup.

(** ** What one car's initialization can touch *)

Lemma under_refl (q : path) : under q q.
Proof. exists []. by rewrite app_nil_r. Qed.

Lemma under_join (q p : path) (a : string) : under q p → under q (os_path_join p a).
Proof. intros [r ->]. exists (r ++ [a]). unfold os_path_join. by rewrite app_assoc. Qed.

Lemma under_other_car (root : path) (c c' : string) (p : path) :
  c ≠ c' → under (os_path_join root c) p → ¬ under (os_path_join root c') p.
Proof.
  intros Hne [r ->] [r' Heq]. unfold os_path_join in Heq.
  rewrite <- !app_assoc in Heq. apply app_inv_head in Heq. by injection Heq.
Qed.

Section Changes_only_under.
Context (q : path).

Lemma cou_unchanged {A} (m : M A) : (∀ s, (m s).2 = s) → changes_only_under q m.
Proof. intros Hm s r s' H. specialize (Hm s). rewrite H in Hm. simpl in Hm. by subst. Qed.

Lemma cou_ret {A} (a : A) : changes_only_under q (ret a).
Proof. by apply cou_unchanged. Qed.

Lemma cou_bind {A B} (m : M A) (f : A → M B) :
  changes_only_under q m → (∀ a, changes_only_under q (f a)) →
  changes_only_under q (bind m f).
Proof.
  intros Hm Hf s r s' H. unfold bind in H.
  destruct (m s) as [[a|e] s1] eqn:E.
  - destruct (Hm _ _ _ E) as [H1 H2]. destruct (Hf a _ _ _ H) as [H3 H4].
    split; [intros p Hp; by rewrite H3, H1|auto].
  - injection H as <- <-. by eapply Hm.
Qed.

Lemma cou_for_each {A} (l : list A) (body : A → M unit) :
  (∀ x, changes_only_under q (body x)) → changes_only_under q (for_each l body).
Proof.
  intros Hbody. induction l as [|x l IH]; simpl; [apply cou_ret|].
  apply cou_bind; [apply Hbody|]. intros _. apply IH.
Qed.

Lemma cou_for_fold {A B} (l : list A) (acc : B) (body : A → B → M B) :
  (∀ x b, changes_only_under q (body x b)) → changes_only_under q (for_fold l acc body).
Proof.
  intros Hbody. revert acc. induction l as [|x l IH]; intros acc; simpl; [apply cou_ret|].
  apply cou_bind; [apply Hbody|]. intros acc'. apply IH.
Qed.

Lemma cou_list_dir (p : path) (files dirs : bool) :
  changes_only_under q (list_dir p files dirs).
Proof.
  apply cou_unchanged. intros s. rewrite list_dir_eq. by destruct (fs s !! p) as [[]|].
Qed.

Lemma cou_set_fs (s : state) (m : gmap path node) (o : fs_op) :
  (∀ p, ¬ under q p → m !! p = fs s !! p) →
  (∀ p, ¬ under q p → fs (set_fs m o s) !! p = fs s !! p)
  ∧ (∀ o', o' ∈ ops s → o' ∈ ops (set_fs m o s)).
Proof. intros H. split; [done|]. intros o' Ho'. simpl. apply elem_of_app. by left. Qed.

Lemma cou_mkdir (p : path) : under q p → changes_only_under q (os_mkdir p).
Proof.
  intros Hu s r s' H.
  apply os_mkdir_inv in H as [(_ & _ & _ & ->)|[_ ->]]; [|done].
  apply cou_set_fs. intros p' Hp'. rewrite lookup_insert_ne; [done|]. by intros ->.
Qed.

Lemma cou_copyfile (src dst : path) :
  under q dst → changes_only_under q (shutil_copyfile src dst).
Proof.
  intros Hu s r s' H. unfold shutil_copyfile in H.
  destruct (fs s !! src) as [[]|]; [| |by simplify_eq];
    (destruct (decide (src = dst)); [by simplify_eq|]); [|by simplify_eq].
  destruct (fs s !! dst) as [[]|];
    destruct (fs s !! os_path_dirname dst) as [[]|]; simplify_eq; try done;
    (apply cou_set_fs; intros p' Hp'; rewrite lookup_insert_ne; [done|]; by intros ->).
Qed.

Lemma cou_move (src dst : path) :
  under q src → under q dst → changes_only_under q (shutil_move src dst).
Proof.
  intros Hsrc Hdst s r s' H. unfold shutil_move in H.
  destruct (is_dir (fs s) src); [by simplify_eq|].
  set (real_dst := if is_dir (fs s) dst then _ else dst) in H.
  assert (Hreal : under q real_dst).
  { unfold real_dst. destruct (is_dir (fs s) dst); [by apply under_join|done]. }
  destruct (is_dir (fs s) dst && _); [by simplify_eq|].
  destruct (fs s !! src) as [[]|]; [| |by simplify_eq]; [|by simplify_eq].
  destruct (decide _); [by simplify_eq|].
  destruct (fs s !! os_path_dirname _) as [[]|]; simplify_eq; try done.
  apply cou_set_fs. intros p' Hp'.
  rewrite lookup_insert_ne, lookup_delete_ne; [done| |]; by intros ->.
Qed.

Lemma cou_init_car_body : changes_only_under q (init_car_body q).
Proof.
  unfold init_car_body. apply cou_bind.
  { unfold create_track_dirs. apply cou_for_each. intros t.
    apply cou_bind; [by apply cou_unchanged|].
    intros []; simpl; [apply cou_ret|].
    apply cou_mkdir, under_join, under_refl. }
  intros _. apply cou_bind.
  { unfold rename_loop. apply cou_for_fold. intros t acc.
    apply cou_bind; [apply cou_list_dir|]. intros setups.
    apply cou_for_fold. intros x acc'.
    apply cou_bind; [|intros _; apply cou_ret].
    apply cou_move; do 2 apply under_join; apply under_refl. }
  intros setupPaths. apply cou_for_each. intros sp.
  unfold copy_loop. apply cou_for_each. intros t.
  destruct (decide _); [apply cou_ret|].
  apply cou_copyfile. do 2 apply under_join. apply under_refl.
Qed.
End Changes_only_under.

Lemma for_each_app {A} (l1 l2 : list A) (body : A → M unit) (s : state) :
  for_each (l1 ++ l2) body s =
  match for_each l1 body s with
  | (Ok _, s') => for_each l2 body s'
  | (Raise e, s') => (Raise e, s')
  end.
Proof.
  revert s. induction l1 as [|x l1 IH]; intros s; simpl; [done|].
  unfold bind. destruct (body x s) as [[[]|e] s']; [apply IH|done].
Qed.

(** Initializing other cars leaves a car's subtree as it is. *)
Lemma init_other_cars_frame (root : path) (car : string) (cars : list string)
    (s s' : state) (r : outcome unit) :
  car ∉ cars →
  for_each cars (init_car root) s = (r, s') →
  (∀ p, under (os_path_join root car) p → fs s' !! p = fs s !! p)
  ∧ (∀ o, o ∈ ops s → o ∈ ops s').
Proof.
  revert s. induction cars as [|c cars IH]; intros s Hnin H.
  - by injection H as <- <-.
  - apply not_elem_of_cons in Hnin as [Hne Hnin].
    simpl in H. unfold bind in H. rewrite init_car_eq in H.
    destruct (init_car_body (os_path_join root c) s) as [[[]|e] s1] eqn:E.
    + destruct (cou_init_car_body _ _ _ _ E) as [H1 H2].
      destruct (IH s1 Hnin H) as [H3 H4]. split; [|auto].
      intros p Hp. rewrite H3 by done. apply H1. by eapply under_other_car.
    + injection H as <- <-.
      destruct (cou_init_car_body _ _ _ _ E) as [H1 H2]. split; [|done].
      intros p Hp. apply H1. by eapply under_other_car.
Qed.

Lemma under_car_file (carPath : path) (t n : string) :
  under carPath (os_path_join (os_path_join carPath t) n).
Proof. do 2 apply under_join. apply under_refl. Qed.

(** A listing of setups with at most one name is fixed by which names are
    regular files. *)
Lemma listing_files_agree (m1 m2 : gmap path node) (p : path) (l : list string) :
  (∀ n, m2 !! os_path_join p n = m1 !! os_path_join p n) →
  length l ≤ 1 →
  listing m1 p true false = l → listing m2 p true false = l.
Proof.
  intros Hagree Hlen H.
  assert (Hf : ∀ n, is_file m2 (os_path_join p n) = is_file m1 (os_path_join p n)).
  { intros n. unfold is_file. by rewrite Hagree. }
  destruct l as [|a [|b l]]; [| |simpl in Hlen; lia].
  - apply listing_files_nil. intros n. rewrite Hf. by apply listing_files_nil.
  - apply listing_files_singleton. intros n. rewrite Hf.
    by apply listing_files_singleton.
Qed.

(** The car with the single setup among other cars: whenever the loop over
    the cars ends normally, the car's tracks are as its own initialization
    left them. *)
Lemma init_cars_single_setup (root : path) (car : string) (data : list byte)
    (cars : list string) (s s' : state) :
  let carPath := os_path_join root car in
  car ∈ cars → NoDup cars →
  is_dir (fs s) carPath = true →
  Forall (λ t, is_file (fs s) (os_path_join carPath t) = false) ACC_TRACK_FOLDERS →
  fs s !! os_path_join (os_path_join carPath "monza") "setup1.json" = Some (File data) →
  only_setup1_in_monza (fs s) carPath →
  Forall (λ t, is_dir (fs s)
                 (os_path_join (os_path_join carPath t) "monza-setup1.json") = false)
         ACC_TRACK_FOLDERS →
  for_each cars (init_car root) s = (Ok tt, s') →
  Forall (λ t, listing (fs s') (os_path_join carPath t) true false
                 = ["monza-setup1.json"]
               ∧ fs s' !! os_path_join (os_path_join carPath t) "monza-setup1.json"
                 = Some (File data))
         ACC_TRACK_FOLDERS
  ∧ OpRename (os_path_join (os_path_join carPath "monza") "setup1.json")
             (os_path_join (os_path_join carPath "monza") "monza-setup1.json")
      ∈ ops s'.
Proof.
  intros carPath Hin Hnd Hcar Hfree Hsrc Honly Hnodir Hrun.
  apply list_elem_of_split in Hin as (l1 & l2 & ->).
  apply NoDup_app in Hnd as (_ & Hn1 & Hnd2).
  apply NoDup_cons in Hnd2 as [Hn2 _].
  assert (Hn1' : car ∉ l1) by (intros Hc; apply (Hn1 car Hc); left).
  rewrite for_each_app in Hrun.
  destruct (for_each l1 (init_car root) s) as [[[]|e] s1] eqn:E1; [|done].
  destruct (init_other_cars_frame root car l1 s s1 _ Hn1' E1) as [F1 _].
  simpl in Hrun. unfold bind in Hrun. rewrite init_car_eq in Hrun. fold carPath in Hrun.
  destruct (init_car_body_single_setup carPath data s1) as (s2 & Hrun2 & Hall & Hop).
  { unfold is_dir. rewrite F1; [done|apply under_refl]. }
  { eapply Forall_impl; [exact Hfree|]. intros t Ht. unfold is_file.
    rewrite F1; [done|apply under_join, under_refl]. }
  { rewrite F1; [done|apply under_car_file]. }
  { unfold only_setup1_in_monza in *. eapply Forall_impl; [exact Honly|].
    intros t Ht. eapply listing_files_agree; [|..|exact Ht].
    - intros n. apply F1, under_car_file.
    - destruct (decide _); simpl; lia. }
  { eapply Forall_impl; [exact Hnodir|]. intros t Ht. unfold is_dir.
    rewrite F1; [done|apply under_car_file]. }
  rewrite Hrun2 in Hrun.
  destruct (init_other_cars_frame root car l2 s2 s' _ Hn2 Hrun) as [F2 Hops].
  split; [|by apply Hops].
  eapply Forall_impl; [exact Hall|]. intros t [Hl Hf]. split.
  - eapply listing_files_agree; [|..|exact Hl]; [|simpl; lia].
    intros n. apply F2, under_car_file.
  - rewrite F2; [done|apply under_car_file].
Qed.

(** ** The directory branch, track by track *)

Lemma directory_loop_cons (setupPath : option path) (carDir : path)
    (trackName : string) (setups : list string) (t : string) (l : list string) :
  directory_loop setupPath carDir trackName setups (t :: l) =
  ((if decide (t = trackName) then ret tt else
    copy_missing setupPath carDir t setups ;;
    trackSetups ← list_dir (os_path_join carDir t) true false;
    remove_deleted carDir t setups trackSetups) ;;
   directory_loop setupPath carDir trackName setups l).
Proof. reflexivity. Qed.

(** The directory branch never copies: the only operations it performs
    are [mkdir] and [remove]. *)
Lemma directory_event_never_copies (em : emitter) (event : FileSystemEvent) (s : state) :
  is_directory event = true →
  Forall (λ o, is_copy o = false) (ops s) →
  Forall (λ o, is_copy o = false) (ops (on_modified em event s).2).
Proof.
  intros Hdir Hops. destruct (on_modified_fs em event s) as [_ ->].
  set (P := λ st : state, Forall (λ o, is_copy o = false) (ops st)).
  assert (Hset : ∀ st m o, is_copy o = false → P st → P (set_fs m o st)).
  { intros st m o Ho Hst. unfold P. simpl. apply Forall_app. split; [done|].
    by constructor. }
  assert (Hmk : ∀ p, preserves P (os_mkdir p)).
  { intros p st r st' H HP.
    apply os_mkdir_inv in H as [(_ & _ & _ & ->)|[_ ->]]; [by apply Hset|done]. }
  assert (Hrm : ∀ p, preserves P (os_remove p)).
  { intros p st r st' H HP. unfold os_remove in H.
    destruct (fs st !! p) as [[]|]; simplify_eq; try done. by apply Hset. }
  destruct (on_modified_block event (set_paused true s)) as [r sb] eqn:E. simpl.
  revert E. rewrite (on_modified_block_directory _ Hdir). simpl. intros E.
  eapply (_ : preserves P _); [exact E|exact Hops].
  Unshelve.
  destruct (decide _); [apply preserves_ret|].
  apply preserves_bind.
  { unfold create_track_dirs. apply preserves_for_each. intros t _.
    apply preserves_bind; [apply preserves_isdir|].
    intros []; simpl; [apply preserves_ret|apply Hmk]. }
  intros _. apply preserves_bind; [apply preserves_list_dir|]. intros setups.
  unfold directory_loop. apply preserves_for_each. intros t _.
  destruct (decide _); [apply preserves_ret|].
  apply preserves_bind.
  - apply preserves_for_each. intros x _.
    apply preserves_bind; [apply preserves_isfile|].
    intros []; simpl; [apply preserves_ret|apply preserves_bind_raise].
  - intros _. apply preserves_bind; [apply preserves_list_dir|].
    intros trackSetups. apply preserves_for_each. intros x _.
    case_bool_decide; [apply preserves_ret|apply Hrm].
Qed.

(** When every setup of the source is already a file in the target track,
    the copy loop passes over all of them. *)
Lemma copy_missing_skip (setupPath : option path) (carDir : path) (track : string)
    (setups : list string) (s : state) :
  (∀ x, x ∈ setups →
        is_file (fs s) (os_path_join (os_path_join carDir track) x) = true) →
  copy_missing setupPath carDir track setups s = (Ok tt, s).
Proof.
  induction setups as [|x l IH]; intros H; [done|].
  unfold copy_missing. simpl. unfold bind at 1. unfold bind at 1.
  unfold os_path_isfile. rewrite (H x) by left. simpl.
  apply IH. intros y Hy. apply H. by right.
Qed.

(** The removal loop over a duplicate-free list of names that are regular
    files of the target track: every name that is not a setup of the source
    is removed, nothing else changes. *)
Lemma remove_deleted_ok (carDir : path) (track : string) (setups xs : list string)
    (s : state) :
  NoDup xs →
  (∀ x, x ∈ xs → is_file (fs s) (os_path_join (os_path_join carDir track) x) = true) →
  ∃ s', remove_deleted carDir track setups xs s = (Ok tt, s')
        ∧ (∀ x, x ∈ xs → x ∉ setups →
                fs s' !! os_path_join (os_path_join carDir track) x = None)
        ∧ (∀ p, (∀ x, x ∈ xs → x ∉ setups →
                      p ≠ os_path_join (os_path_join carDir track) x) →
                fs s' !! p = fs s !! p).
Proof.
  revert s. induction xs as [|x xs IH]; intros s Hnd Hfiles.
  - exists s. split_and!; [done| |done]. intros x Hx. by apply not_elem_of_nil in Hx.
  - apply NoDup_cons in Hnd as [Hx Hnd].
    unfold remove_deleted. simpl. fold (remove_deleted carDir track setups xs).
    case_bool_decide as Hin.
    + unfold bind, ret.
      destruct (IH s Hnd) as (s' & Hrun & Hgone & Hfr).
      { intros y Hy. apply Hfiles. by right. }
      exists s'. split_and!; [done| |].
      * intros y [->|Hy]%elem_of_cons Hny; [done|by apply Hgone].
      * intros p Hp. apply Hfr. intros y Hy. apply Hp. by right.
    + unfold bind. unfold os_remove.
      pose proof (Hfiles x ltac:(left)) as Hf. unfold is_file in Hf.
      destruct (fs s !! os_path_join (os_path_join carDir track) x) as [[d|]|] eqn:E;
        try done.
      set (s1 := set_fs _ _ s).
      destruct (IH s1 Hnd) as (s' & Hrun & Hgone & Hfr).
      { intros y Hy. unfold is_file. simpl. rewrite lookup_delete_ne.
        - apply Hfiles. by right.
        - intros Heq. apply os_path_join_inj in Heq as [_ ->]. done. }
      exists s'. split_and!; [done| |].
      * intros y [->|Hy]%elem_of_cons Hny; [|by apply Hgone].
        rewrite Hfr.
        -- simpl. by rewrite lookup_delete_eq.
        -- intros z Hz _ Heq. apply os_path_join_inj in Heq as [_ ->]. done.
      * intros p Hp. rewrite Hfr.
        -- simpl. rewrite lookup_delete_ne; [done|].
           intros Heq. by apply (Hp x ltac:(left) Hin).
        -- intros y Hy. apply Hp. by right.
Qed.

(** The loop of the directory branch when nothing has to be copied: it ends
    normally, and in every other track of the list the files whose names
    are not setups of the source are gone; nothing else changes. *)
Lemma directory_loop_synced (carDir : path) (A : string) (setups l : list string)
    (s : state) :
  (∀ t, t ∈ l → t ≠ A →
        is_dir (fs s) (os_path_join carDir t) = true
        ∧ ∀ x, x ∈ setups →
               is_file (fs s) (os_path_join (os_path_join carDir t) x) = true) →
  ∃ s', directory_loop None carDir A setups l s = (Ok tt, s')
        ∧ (∀ t x, t ∈ l → t ≠ A → x ∉ setups →
                  is_file (fs s') (os_path_join (os_path_join carDir t) x) = false)
        ∧ (∀ p, (∀ t x, t ∈ l → t ≠ A → x ∉ setups →
                        p ≠ os_path_join (os_path_join carDir t) x) →
                fs s' !! p = fs s !! p).
Proof.
  revert s. induction l as [|t l IH]; intros s Hpre.
  - exists s. split_and!; [done| |done]. intros t x Ht. by apply not_elem_of_nil in Ht.
  - rewrite directory_loop_cons. unfold bind at 1.
    destruct (decide (t = A)) as [->|Hne].
    + unfold ret.
      destruct (IH s) as (s' & Hrun & Hgone & Hfr).
      { intros t' Ht'. apply Hpre. by right. }
      exists s'. split_and!; [done| |].
      * intros t' x [->|Ht']%elem_of_cons Hne' Hx; [done|by apply Hgone].
      * intros p Hp. apply Hfr. intros t' x Ht'. apply Hp. by right.
    + destruct (Hpre t ltac:(left) Hne) as [Hd Hfiles].
      unfold bind at 1. rewrite copy_missing_skip by done.
      unfold bind at 1. rewrite list_dir_eq. pose proof Hd as Hd'. unfold is_dir in Hd'.
      destruct (fs s !! os_path_join carDir t) as [[]|] eqn:Et; try done.
      set (xs := listing (fs s) (os_path_join carDir t) true false).
      destruct (remove_deleted_ok carDir t setups xs s) as (s1 & Hrun1 & Hgone1 & Hfr1).
      { apply NoDup_listing. }
      { intros x Hx. by apply elem_of_listing_files. }
      rewrite Hrun1.
      destruct (IH s1) as (s' & Hrun & Hgone & Hfr).
      { intros t' Ht' Hne'. destruct (Hpre t' ltac:(by right) Hne') as [Hd1 Hf1]. split.
        - unfold is_dir. rewrite Hfr1; [done|].
          intros x _ _ Heq. symmetry in Heq. by apply os_path_join2_ne_join in Heq.
        - intros x Hx. unfold is_file. rewrite Hfr1; [by apply Hf1|].
          intros y _ Hy Heq. apply os_path_join_inj in Heq as [_ ->]. done. }
      exists s'. split_and!; [done| |].
      * intros t' x [->|Ht']%elem_of_cons Hne' Hx; [|by apply Hgone].
        destruct (decide (t ∈ l)) as [Hin|Hnin]; [by apply Hgone|].
        unfold is_file. rewrite Hfr.
        2:{ intros t'' y Ht'' _ _ Heq. apply os_path_join_inj in Heq as [Heq _].
            apply os_path_join_inj in Heq as [_ ->]. done. }
        destruct (decide (x ∈ xs)) as [Hxs|Hxs].
        -- by rewrite Hgone1.
        -- rewrite Hfr1.
           ++ destruct (is_file (fs s) (os_path_join (os_path_join carDir t) x)) eqn:E.
              ** by apply elem_of_listing_files in E.
              ** exact E.
           ++ intros y Hy _ Heq. apply os_path_join_inj in Heq as [_ ->]. done.
      * intros p Hp. rewrite Hfr.
        -- apply Hfr1. intros x _ Hx. apply (Hp t x); [by left|done|done].
        -- intros t' x Ht'. apply Hp. by right.
Qed.

(** A directory event in a car where every setup of the source track is
    already a file in the other tracks (nothing to copy): the handler ends
    normally and afterwards every known track has exactly the source's
    setups, so the files removed from the source are removed everywhere. *)
Lemma directory_pass_propagates_deletions (em : emitter) (event : FileSystemEvent)
    (carDir : path) (A : string) (s : state) :
  is_directory event = true →
  src_path event = os_path_join carDir A →
  os_path_basename carDir ≠ "Setups" →
  is_dir (fs s) carDir = true →
  Forall (λ t, is_file (fs s) (os_path_join carDir t) = false) ACC_TRACK_FOLDERS →
  is_dir (fs s) (os_path_join carDir A) = true →
  (∀ t x, t ∈ ACC_TRACK_FOLDERS →
          is_file (fs s) (os_path_join (os_path_join carDir A) x) = true →
          is_file (fs s) (os_path_join (os_path_join carDir t) x) = true) →
  ∃ s', on_modified em event s = (Ok tt, s')
        ∧ ∀ t x, t ∈ ACC_TRACK_FOLDERS →
                 is_file (fs s') (os_path_join (os_path_join carDir t) x)
                 = is_file (fs s) (os_path_join (os_path_join carDir A) x).
Proof.
  intros Hdir Hpath Hcar Hcd Hfree HA Hsync.
  destruct (create_track_dirs_ok carDir (set_paused true s) Hcd Hfree)
    as (s1 & Hrun1 & Hdirs & Hsame & Hext).
  assert (HA1 : fs s1 !! os_path_join carDir A = Some Dir).
  { apply Hext. unfold is_dir in HA. simpl.
    by destruct (fs s !! os_path_join carDir A) as [[]|]. }
  set (setups := listing (fs s1) (os_path_join carDir A) true false).
  assert (Hsetups : ∀ x, x ∈ setups ↔
            is_file (fs s) (os_path_join (os_path_join carDir A) x) = true).
  { intros x. unfold setups. rewrite elem_of_listing_files.
    unfold is_file. by rewrite Hsame. }
  destruct (directory_loop_synced carDir A setups ACC_TRACK_FOLDERS s1)
    as (s2 & Hrun2 & Hgone & Hfr).
  { intros t Ht Hne. split; [by apply Hdirs|].
    intros x Hx. unfold is_file. rewrite Hsame. apply (Hsync t x Ht).
    by apply Hsetups. }
  assert (Hblock : on_modified_block event (set_paused true s) = (Ok tt, s2)).
  { rewrite (on_modified_block_directory _ Hdir). simpl.
    unfold event_carName, event_trackDir, os_path_split. rewrite Hdir. simpl.
    rewrite Hpath, !os_path_dirname_join, os_path_basename_join.
    destruct (decide (os_path_basename carDir = "Setups")); [done|].
    unfold bind at 1. rewrite Hrun1. unfold bind at 1.
    rewrite list_dir_eq, HA1. exact Hrun2. }
  rewrite on_modified_eq, Hblock. simpl. eexists. split; [reflexivity|]. simpl.
  intros t x Ht.
  destruct (is_file (fs s) (os_path_join (os_path_join carDir A) x)) eqn:E.
  - unfold is_file. rewrite Hfr.
    + rewrite Hsame. apply (Hsync t x Ht E).
    + intros t' y _ _ Hy Heq. apply os_path_join_inj in Heq as [_ ->].
      by apply Hy, Hsetups.
  - destruct (decide (t = A)) as [->|Hne].
    + unfold is_file. rewrite Hfr.
      * rewrite Hsame. exact E.
      * intros t' y _ Hne' _ Heq. apply os_path_join_inj in Heq as [Heq _].
        apply os_path_join_inj in Heq as [_ ->]. done.
    + apply Hgone; [done|done|]. intros Hx. apply Hsetups in Hx. congruence.
Qed.

(** ** Listings in general *)

Lemma elem_of_listing (m : gmap path node) (p : path) (files dirs : bool) (n : string) :
  n ∈ listing m p files dirs ↔
  (files = true ∧ is_file m (os_path_join p n) = true)
  ∨ (dirs = true ∧ is_dir m (os_path_join p n) = true).
Proof.
  unfold listing. rewrite list_elem_of_In, filter_In, <- list_elem_of_In.
  rewrite elem_of_dir_entries. unfold is_file, is_dir.
  destruct files, dirs, (m !! os_path_join p n) as [[]|]; simpl.
  all: split; [intros [[x Hx] H]|intros [[? ?]|[? ?]]].
  all: try done; try (split; [by eauto|done]).
  all: try (by left); try (by right).
Qed.

Lemma on_modified_block_timeout (event : FileSystemEvent) (s : state) :
  timeout (on_modified_block event s).2 = timeout s.
Proof.
  destruct (on_modified_block event s) as [r s'] eqn:E. simpl.
  by eapply (preserves_obs_on_modified_block (λ x, timeout x = timeout s)).
Qed.

Lemma on_modified_block_queue (event : FileSystemEvent) (s : state) :
  event_queue (on_modified_block event s).2 = event_queue s.
Proof.
  destruct (on_modified_block event s) as [r s'] eqn:E. simpl.
  by eapply (preserves_obs_on_modified_block (λ x, event_queue x = event_queue s)).
Qed.

(** ** More on the directory ensurer *)

Lemma ACC_TRACK_FOLDERS_NoDup : NoDup ACC_TRACK_FOLDERS.
Proof. apply (bool_decide_unpack (NoDup ACC_TRACK_FOLDERS)). by vm_compute. Qed.

Lemma ensure_loop_app (carDir : path) (l1 l2 : list string) (s : state) :
  ensure_loop carDir (l1 ++ l2) s =
  match ensure_loop carDir l1 s with
  | (Ok _, s') => ensure_loop carDir l2 s'
  | (Raise e, s') => (Raise e, s')
  end.
Proof. unfold ensure_loop. apply for_each_app. Qed.

(** On success the recorded operations are the [mkdir]s of the tracks that
    were missing, in the order of the list. *)
Lemma ensure_loop_ops (carDir : path) (l : list string) (s s' : state) :
  NoDup l →
  ensure_loop carDir l s = (Ok tt, s') →
  ops s' = ops s ++ map (λ t, OpMkdir (os_path_join carDir t))
                        (missing_tracks (fs s) carDir l).
Proof.
  revert s. induction l as [|t l IH]; intros s Hnd H.
  - injection H as <-. simpl. by rewrite app_nil_r.
  - apply NoDup_cons in Hnd as [Ht Hnd]. rewrite ensure_loop_cons in H.
    unfold missing_tracks. simpl.
    destruct (is_dir (fs s) (os_path_join carDir t)) eqn:Hd; simpl.
    + by apply IH.
    + destruct (os_mkdir (os_path_join carDir t) s) as [[[]|e] s1] eqn:E; [|done].
      apply os_mkdir_inv in E as [(_ & _ & _ & ->)|[[e [=]] _]].
      rewrite (IH _ Hnd H). simpl. rewrite <- app_assoc. simpl. do 3 f_equal.
      unfold missing_tracks. apply filter_ext_in. intros t' Ht'%list_elem_of_In.
      unfold is_dir. rewrite lookup_insert_ne; [done|].
      intros Heq. apply os_path_join_inj in Heq as [_ ->]. done.
Qed.

(** ** Which operations a call performs *)

Section Appends.
Context (P : fs_op → Prop).

Lemma appends_unchanged {A} (m : M A) : (∀ s, (m s).2 = s) → appends P m.
Proof.
  intros Hm s r s' H. specialize (Hm s). rewrite H in Hm. simpl in Hm. subst.
  exists []. by rewrite app_nil_r.
Qed.

Lemma appends_bind {A B} (m : M A) (f : A → M B) :
  appends P m → (∀ a, appends P (f a)) → appends P (bind m f).
Proof.
  intros Hm Hf s r s' H. unfold bind in H.
  destruct (m s) as [[a|e] s1] eqn:E.
  - destruct (Hm _ _ _ E) as (n1 & H1 & F1). destruct (Hf a _ _ _ H) as (n2 & H2 & F2).
    exists (n1 ++ n2). rewrite H2, H1, app_assoc. split; [done|by apply Forall_app].
  - injection H as <- <-. by eapply Hm.
Qed.

Lemma appends_bind_ret {A B} (a : A) (f : A → M B) :
  appends P (f a) → appends P (bind (ret a) f).
Proof. intros Hf s r s' H. by eapply Hf. Qed.

Lemma appends_for_each {A} (l : list A) (body : A → M unit) :
  (∀ x, x ∈ l → appends P (body x)) → appends P (for_each l body).
Proof.
  induction l as [|x l IH]; intros Hbody; simpl.
  - by apply appends_unchanged.
  - apply appends_bind; [apply Hbody; left|].
    intros _. apply IH. intros y Hy. apply Hbody. by right.
Qed.

Lemma appends_set_fs (s : state) (m : gmap path node) (o : fs_op) :
  P o → ∃ new, ops (set_fs m o s) = ops s ++ new ∧ Forall P new.
Proof. intros Ho. exists [o]. split; [done|by constructor]. Qed.

Lemma appends_mkdir (p : path) : P (OpMkdir p) → appends P (os_mkdir p).
Proof.
  intros Ho s r s' H.
  apply os_mkdir_inv in H as [(_ & _ & _ & ->)|[_ ->]]; [by apply appends_set_fs|].
  exists []. by rewrite app_nil_r.
Qed.

Lemma appends_remove (p : path) : P (OpRemove p) → appends P (os_remove p).
Proof.
  intros Ho s r s' H. unfold os_remove in H.
  destruct (fs s !! p) as [[]|]; simplify_eq; try (by apply appends_set_fs);
    exists []; by rewrite app_nil_r.
Qed.

Lemma appends_copyfile (src dst : path) :
  P (OpCopyfile src dst) → appends P (shutil_copyfile src dst).
Proof.
  intros Ho s r s' H. unfold shutil_copyfile in H.
  destruct (fs s !! src) as [[]|]; [| |simplify_eq; exists []; by rewrite app_nil_r];
    (destruct (decide (src = dst));
       [simplify_eq; exists []; by rewrite app_nil_r|]);
    [|simplify_eq; exists []; by rewrite app_nil_r].
  destruct (fs s !! dst) as [[]|];
    destruct (fs s !! os_path_dirname dst) as [[]|]; simplify_eq;
    try (by apply appends_set_fs); exists []; by rewrite app_nil_r.
Qed.

Lemma appends_create_track_dirs (carDir : path) :
  (∀ t, t ∈ ACC_TRACK_FOLDERS → P (OpMkdir (os_path_join carDir t))) →
  appends P (create_track_dirs carDir).
Proof.
  intros HP. unfold create_track_dirs. apply appends_for_each. intros t Ht.
  apply appends_bind; [by apply appends_unchanged|].
  intros []; simpl; [by apply appends_unchanged|]. by apply appends_mkdir, HP.
Qed.
End Appends.

Lemma appends_directory_loop (carDir : path) (trackName : string)
    (setups : list string) :
  appends (dir_event_op carDir trackName)
    (directory_loop None carDir trackName setups ACC_TRACK_FOLDERS).
Proof.
  unfold directory_loop. apply appends_for_each. intros t Ht.
  destruct (decide (t = trackName)); [by apply appends_unchanged|].
  apply appends_bind.
  - apply appends_for_each. intros x _.
    apply appends_bind; [by apply appends_unchanged|].
    intros []; simpl; by apply appends_unchanged.
  - intros _. apply appends_bind.
    { apply appends_unchanged. intros s. rewrite list_dir_eq.
      by destruct (fs s !! _) as [[]|]. }
    intros trackSetups. apply appends_for_each. intros x _.
    case_bool_decide; [by apply appends_unchanged|].
    apply appends_remove. right. eauto.
Qed.

Lemma appends_file_loop (src : path) (name : string) (carDir : path)
    (trackName : string) :
  appends (file_event_op carDir trackName src name)
    (file_loop (Some src) (Some name) carDir trackName ACC_TRACK_FOLDERS).
Proof.
  unfold file_loop. apply appends_for_each. intros t Ht.
  destruct (decide (t = trackName)); [by apply appends_unchanged|].
  simpl. do 2 apply appends_bind_ret.
  apply appends_copyfile. right. eauto.
Qed.

(** The operations of a whole handler call. *)
Lemma appends_on_modified (em : emitter) (event : FileSystemEvent) (s : state) :
  let trackDir := event_trackDir event in
  let carDir := os_path_dirname trackDir in
  let trackName := os_path_basename trackDir in
  ∃ new, ops (on_modified em event s).2 = ops s ++ new
         ∧ Forall (if is_directory event
                   then dir_event_op carDir trackName
                   else file_event_op carDir trackName (src_path event)
                          (os_path_basename (src_path event))) new.
Proof.
  intros trackDir carDir trackName. subst trackDir carDir trackName.
  destruct (on_modified_fs em event s) as [_ ->].
  assert (Happ : appends
            (if is_directory event
             then dir_event_op (os_path_dirname (event_trackDir event))
                    (os_path_basename (event_trackDir event))
             else file_event_op (os_path_dirname (event_trackDir event))
                    (os_path_basename (event_trackDir event)) (src_path event)
                    (os_path_basename (src_path event)))
            (on_modified_block event)).
  { unfold event_trackDir. destruct (is_directory event) eqn:Hd.
    - rewrite (on_modified_block_directory _ Hd). simpl.
      destruct (decide _); [by apply appends_unchanged|].
      apply appends_bind.
      { apply appends_create_track_dirs. intros t Ht. left. eauto. }
      intros _. apply appends_bind.
      { apply appends_unchanged. intros s0. rewrite list_dir_eq.
        by destruct (fs s0 !! _) as [[]|]. }
      intros setups. apply appends_directory_loop.
    - rewrite (on_modified_block_file _ Hd). simpl.
      destruct (decide _); [by apply appends_unchanged|].
      apply appends_bind.
      { apply appends_create_track_dirs. intros t Ht. left. eauto. }
      intros _. apply appends_file_loop. }
  destruct (on_modified_block event (set_paused true s)) as [r sb] eqn:E.
  exact (Happ _ _ _ E).
Qed.

(** ** Where the handler writes *)

Lemma cou_bind_raise {A B} (q : path) (e : exn) (f : A → M B) :
  changes_only_under q (bind (raise e) f).
Proof. by apply cou_unchanged. Qed.

Lemma cou_remove (q p : path) : under q p → changes_only_under q (os_remove p).
Proof.
  intros Hu s r s' H. unfold os_remove in H.
  destruct (fs s !! p) as [[]|]; simplify_eq; try done.
  apply cou_set_fs. intros p' Hp'. rewrite lookup_delete_ne; [done|]. by intros ->.
Qed.

Lemma cou_create_track_dirs (carDir : path) :
  changes_only_under carDir (create_track_dirs carDir).
Proof.
  unfold create_track_dirs. apply cou_for_each. intros t.
  apply cou_bind; [by apply cou_unchanged|].
  intros []; simpl; [apply cou_ret|].
  apply cou_mkdir, under_join, under_refl.
Qed.

Lemma cou_on_modified_block (event : FileSystemEvent) :
  changes_only_under (os_path_dirname (event_trackDir event)) (on_modified_block event).
Proof.
  unfold event_trackDir. destruct (is_directory event) eqn:Hd.
  - rewrite (on_modified_block_directory _ Hd). simpl.
    destruct (decide _); [apply cou_ret|].
    apply cou_bind; [apply cou_create_track_dirs|]. intros _.
    apply cou_bind; [apply cou_list_dir|]. intros setups.
    unfold directory_loop. apply cou_for_each. intros t.
    destruct (decide _); [apply cou_ret|].
    apply cou_bind.
    + apply cou_for_each. intros x.
      apply cou_bind; [by apply cou_unchanged|].
      intros []; simpl; [apply cou_ret|apply cou_bind_raise].
    + intros _. apply cou_bind; [apply cou_list_dir|]. intros trackSetups.
      apply cou_for_each. intros x.
      case_bool_decide; [apply cou_ret|].
      apply cou_remove. do 2 apply under_join. apply under_refl.
  - rewrite (on_modified_block_file _ Hd). simpl.
    destruct (decide _); [apply cou_ret|].
    apply cou_bind; [apply cou_create_track_dirs|]. intros _.
    unfold file_loop. apply cou_for_each. intros t.
    destruct (decide _); [apply cou_ret|].
    apply cou_bind; [by apply cou_unchanged|]. intros name.
    apply cou_bind; [by apply cou_unchanged|]. intros src.
    apply cou_copyfile. do 2 apply under_join. apply under_refl.
Qed.

(** ** Entries a call leaves as they are *)

Lemma preserves_lookup_mkdir (p q : path) (v : option node) :
  p ≠ q → preserves (λ s, fs s !! p = v) (os_mkdir q).
Proof.
  intros Hne s r s' H HP.
  apply os_mkdir_inv in H as [(_ & _ & _ & ->)|[_ ->]]; [|done].
  simpl. by rewrite lookup_insert_ne.
Qed.

Lemma preserves_lookup_remove (p q : path) (v : option node) :
  p ≠ q → preserves (λ s, fs s !! p = v) (os_remove q).
Proof.
  intros Hne s r s' H HP. unfold os_remove in H.
  destruct (fs s !! q) as [[]|]; simplify_eq; try done.
  simpl. by rewrite lookup_delete_ne.
Qed.

(** A directory event leaves the entries of its own track directory
    alone. *)
Lemma directory_block_keeps_source (event : FileSystemEvent) (carDir : path)
    (A x : string) (v : option node) :
  is_directory event = true →
  src_path event = os_path_join carDir A →
  preserves (λ s, fs s !! os_path_join (os_path_join carDir A) x = v)
            (on_modified_block event).
Proof.
  intros Hd Hpath. rewrite (on_modified_block_directory _ Hd). simpl.
  rewrite Hpath, os_path_dirname_join, os_path_basename_join.
  destruct (decide _); [apply preserves_ret|].
  apply preserves_bind.
  { unfold create_track_dirs. apply preserves_for_each. intros t _.
    apply preserves_bind; [apply preserves_isdir|].
    intros []; simpl; [apply preserves_ret|].
    apply preserves_lookup_mkdir, os_path_join2_ne_join. }
  intros _. apply preserves_bind; [apply preserves_list_dir|]. intros setups.
  unfold directory_loop. apply preserves_for_each. intros t _.
  destruct (decide (t = A)) as [->|Hne]; [apply preserves_ret|].
  apply preserves_bind.
  - apply preserves_for_each. intros y _.
    apply preserves_bind; [apply preserves_isfile|].
    intros []; simpl; [apply preserves_ret|apply preserves_bind_raise].
  - intros _. apply preserves_bind; [apply preserves_list_dir|].
    intros trackSetups. apply preserves_for_each. intros y _.
    case_bool_decide; [apply preserves_ret|].
    apply preserves_lookup_remove. intros Heq.
    apply os_path_join_inj in Heq as [Heq _].
    apply os_path_join_inj in Heq as [_ Heq]. by subst.
Qed.

(** ** The observer thread *)

Lemma observer_run_paused (rounds : list (list FileSystemEvent * emitter)) (s : state) :
  paused s = true →
  observer_run rounds s
  = (Ok tt, set_queue (event_queue s ++ concat (map fst rounds)) s).
Proof.
  revert s. induction rounds as [|[evs em] rounds IH]; intros s Hp; simpl.
  - unfold ret, set_queue. rewrite app_nil_r. by destruct s.
  - unfold bind, emitter_puts, dispatch_events.
    assert (paused (set_queue (event_queue s ++ evs) s) = true) as Hp' by done.
    rewrite Hp'. simpl. rewrite IH by done. simpl. unfold set_queue. simpl.
    by rewrite app_assoc.
Qed.

(** ** File events: the source is gone, or lies outside the tracks *)

Lemma file_loop_missing_source (src : path) (name : string) (carDir : path)
    (A : string) (l : list string) (s : state) :
  fs s !! src = None →
  (∃ t, t ∈ l ∧ t ≠ A) →
  file_loop (Some src) (Some name) carDir A l s = (Raise FileNotFoundError, s).
Proof.
  intros Hsrc. induction l as [|t l IH]; intros (t' & Hin & Hne).
  - by apply not_elem_of_nil in Hin.
  - rewrite file_loop_cons. destruct (decide (t = A)) as [->|Hne'].
    + apply IH. apply elem_of_cons in Hin as [->|Hin]; [done|eauto].
    + unfold shutil_copyfile. by rewrite Hsrc.
Qed.

Lemma other_track_exists (A : string) : ∃ t, t ∈ ACC_TRACK_FOLDERS ∧ t ≠ A.
Proof.
  destruct (decide (A = "Barcelona")) as [->|Hne].
  - exists "brands_hatch". split; [set_solver|done].
  - exists "Barcelona". split; [set_solver|done].
Qed.

(** The block of a file event in a sound car directory, for any folder
    name [A] of the source. *)
Lemma on_modified_block_file_ok (event : FileSystemEvent) (carDir : path)
    (A name : string) (data : list byte) (s : state) :
  is_directory event = false →
  src_path event = os_path_join (os_path_join carDir A) name →
  os_path_basename carDir ≠ "Setups" →
  is_dir (fs s) carDir = true →
  Forall (λ t, is_file (fs s) (os_path_join carDir t) = false) ACC_TRACK_FOLDERS →
  fs s !! src_path event = Some (File data) →
  Forall (λ t, is_dir (fs s) (os_path_join (os_path_join carDir t) name) = false)
         ACC_TRACK_FOLDERS →
  ∃ sb, on_modified_block event s = (Ok tt, sb)
        ∧ Forall (λ t, t ≠ A →
                       fs sb !! os_path_join (os_path_join carDir t) name
                       = Some (File data)) ACC_TRACK_FOLDERS
        ∧ Forall (λ t, is_dir (fs sb) (os_path_join carDir t) = true) ACC_TRACK_FOLDERS
        ∧ fs sb !! src_path event = Some (File data).
Proof.
  intros Hfile Hpath Hcar Hdir Hfree Hsrc Hnodir.
  rewrite (on_modified_block_file _ Hfile). simpl.
  unfold event_carName, event_trackDir, os_path_split. rewrite Hfile. simpl.
  rewrite Hpath, !os_path_dirname_join, !os_path_basename_join.
  destruct (decide (os_path_basename carDir = "Setups")); [done|].
  unfold bind at 1.
  destruct (create_track_dirs_ok carDir s Hdir Hfree) as (s1 & Hrun & Hall & Hsame & Hext).
  rewrite Hrun. rewrite Hpath in Hsrc.
  destruct (file_loop_ok (os_path_join (os_path_join carDir A) name) name
              carDir A data ACC_TRACK_FOLDERS s1)
    as (s2 & Hrun2 & Hall2 & Hfr & _).
  - by apply Hext.
  - apply Forall_forall. intros t Ht Hne.
    rewrite Forall_forall in Hnodir. split_and!.
    + intros Heq. apply os_path_join_inj in Heq as [Heq _].
      apply os_path_join_inj in Heq as [_ Heq]. by subst.
    + by apply Hall.
    + unfold is_dir. rewrite Hsame. by apply Hnodir.
  - exists s2. split_and!; [done| | |].
    + eapply Forall_impl; [exact Hall2|]. intros t Ht Hne. by apply Ht.
    + apply Forall_forall. intros t Ht. unfold is_dir.
      destruct (Hfr (os_path_join carDir t)) as [->|(t' & _ & _ & Heq & _)].
      * by apply Hall.
      * symmetry in Heq. by apply os_path_join2_ne_join in Heq.
    + destruct (Hfr (os_path_join (os_path_join carDir A) name))
        as [->|(_ & _ & _ & _ & Hx)]; [by apply Hext|done].
Qed.

(** ** Handling the same file event again *)

Lemma ensure_loop_noop (carDir : path) (l : list string) (s : state) :
  Forall (λ t, is_dir (fs s) (os_path_join carDir t) = true) l →
  ensure_loop carDir l s = (Ok tt, s).
Proof.
  induction l as [|t l IH]; intros Hl; [done|].
  apply Forall_cons in Hl as [Ht Hl]. rewrite ensure_loop_cons, Ht. by apply IH.
Qed.

Lemma file_loop_idem (src : path) (name : string) (carDir : path) (A : string)
    (data : list byte) (l : list string) (s : state) :
  fs s !! src = Some (File data) →
  Forall (λ t, t ≠ A →
               src ≠ os_path_join (os_path_join carDir t) name
               ∧ is_dir (fs s) (os_path_join carDir t) = true
               ∧ fs s !! os_path_join (os_path_join carDir t) name
                 = Some (File data)) l →
  ∃ s', file_loop (Some src) (Some name) carDir A l s = (Ok tt, s') ∧ fs s' = fs s.
Proof.
  revert s. induction l as [|t l IH]; intros s Hsrc Hl.
  - by exists s.
  - apply Forall_cons in Hl as [Ht Hl]. rewrite file_loop_cons.
    destruct (decide (t = A)) as [->|Hne]; [by apply IH|].
    destruct (Ht Hne) as (Hsd & Hpar & Htgt).
    rewrite (shutil_copyfile_ok _ _ _ data); try done;
      [|unfold is_dir; by rewrite Htgt|by rewrite os_path_dirname_join].
    set (s1 := set_fs _ _ s).
    assert (Hfs : fs s1 = fs s) by (simpl; by apply insert_id).
    destruct (IH s1) as (s' & Hrun & Hfs').
    + by rewrite Hfs.
    + eapply Forall_impl; [exact Hl|]. intros t' Ht'. by rewrite Hfs.
    + exists s'. split; [done|]. by rewrite Hfs'.
Qed.


(** ** The observer thread and events that are not modifications *)

Lemma observer_run_other_events (rounds : list (list FileSystemEvent * emitter))
    (s : state) :
  Forall (λ e, event_type e ≠ Modified) (event_queue s) →
  Forall (λ r, Forall (λ e, event_type e ≠ Modified) r.1) rounds →
  ∃ s', observer_run rounds s = (Ok tt, s') ∧ fs s' = fs s ∧ ops s' = ops s.
Proof.
  revert s. induction rounds as [|[evs em] rounds IH]; intros s Hq Hr; simpl.
  - by exists s.
  - apply Forall_cons in Hr as [Hevs Hr]. simpl in Hevs.
    unfold bind at 1. unfold emitter_puts. unfold bind at 1.
    set (s1 := set_queue (event_queue s ++ evs) s).
    assert (Hq1 : Forall (λ e, event_type e ≠ Modified) (event_queue s1))
      by (simpl; by apply Forall_app).
    assert (Hstep : ∃ s2, dispatch_events em s1 = (Ok tt, s2)
              ∧ fs s2 = fs s ∧ ops s2 = ops s
              ∧ Forall (λ e, event_type e ≠ Modified) (event_queue s2)).
    { unfold dispatch_events. destruct (negb (paused s1)); [|by exists s1].
      unfold Observer_dispatch_events.
      destruct (event_queue s1) as [|e q] eqn:Eq; [exists s1; by rewrite Eq|].
      apply Forall_cons in Hq1 as [He Hq1]. unfold handler_dispatch.
      destruct (event_type e); [done|..]; eexists; (split; [reflexivity|done]). }
    destruct Hstep as (s2 & -> & Hf & Ho & Hq2).
    destruct (IH s2 Hq2 Hr) as (s' & Hrun & Hf' & Ho').
    exists s'. split; [done|]. by rewrite Hf', Ho', Hf, Ho.
Qed.

(** ** Where the initializer writes *)

Lemma under_trans (q1 q2 p : path) : under q1 q2 → under q2 p → under q1 p.
Proof. intros [r1 ->] [r2 ->]. exists (r1 ++ r2). by rewrite app_assoc. Qed.

Lemma cou_weaken {A} (q q' : path) (m : M A) :
  under q' q → changes_only_under q m → changes_only_under q' m.
Proof.
  intros Hu Hm s r s' H. destruct (Hm _ _ _ H) as [H1 H2]. split; [|done].
  intros p Hp. apply H1. intros Hq. apply Hp. by eapply under_trans.
Qed.

Lemma cou_init (root : path) : changes_only_under root (init root).
Proof.
  unfold init. apply cou_bind; [apply cou_list_dir|]. intros cars.
  apply cou_for_each. intros c. rewrite init_car_eq.
  eapply cou_weaken; [|apply cou_init_car_body]. apply under_join, under_refl.
Qed.

(** ** The initializer for one setup in any known track *)

Lemma string_length_app (s1 s2 : string) :
  String.length (s1 +:+ s2) = String.length s1 + String.length s2.
Proof. induction s1 as [|c s1 IH]; simpl; [done|by rewrite IH]. Qed.

Lemma prefixed_ne (A setup : string) : setup ≠ A +:+ "-" +:+ setup.
Proof.
  intros H. apply (f_equal String.length) in H.
  rewrite !string_length_app in H. simpl in H. lia.
Qed.

Section Init_one_setup.
Context (carPath : path) (A setup : string) (data : list byte) (s : state).

Let prefixed : string := A +:+ "-" +:+ setup.

Let src : path := os_path_join (os_path_join carPath A) setup.
Let dst : path := os_path_join (os_path_join carPath A) prefixed.

Hypothesis HA : A ∈ ACC_TRACK_FOLDERS.
Hypothesis Hcar : is_dir (fs s) carPath = true.
Hypothesis Hfree :
  Forall (λ t, is_file (fs s) (os_path_join carPath t) = false) ACC_TRACK_FOLDERS.
Hypothesis Hsrc : fs s !! src = Some (File data).
Hypothesis Honly :
  Forall (λ t, listing (fs s) (os_path_join carPath t) true false
               = if decide (t = A) then [setup] else []) ACC_TRACK_FOLDERS.
Hypothesis Hnodir :
  Forall (λ t, is_dir (fs s)
                 (os_path_join (os_path_join carPath t) prefixed) = false)
         ACC_TRACK_FOLDERS.

Local Lemma src_ne_dst_g : src ≠ dst.
Proof. intros H. apply os_path_join_inj in H as [_ H]. by apply prefixed_ne in H. Qed.

(** The files of the car before the run. *)
Local Lemma files_before_g (t n : string) :
  t ∈ ACC_TRACK_FOLDERS →
  is_file (fs s) (os_path_join (os_path_join carPath t) n) = true →
  t = A ∧ n = setup.
Proof.
  intros Ht Hf.
  rewrite Forall_forall in Honly. specialize (Honly t Ht).
  apply elem_of_listing_files in Hf. rewrite Honly in Hf.
  destruct (decide (t = A)) as [->|_].
  - by apply list_elem_of_singleton in Hf.
  - by apply not_elem_of_nil in Hf.
Qed.

(** After the ensurer. *)
Local Lemma after_ensure_g :
  ∃ s1, create_track_dirs carPath s = (Ok tt, s1)
        ∧ (∀ t, t ∈ ACC_TRACK_FOLDERS → is_dir (fs s1) (os_path_join carPath t) = true)
        ∧ (∀ t n, fs s1 !! os_path_join (os_path_join carPath t) n
                  = fs s !! os_path_join (os_path_join carPath t) n).
Proof.
  destruct (create_track_dirs_ok carPath s Hcar Hfree) as (s1 & ? & ? & ? & _).
  by exists s1.
Qed.

(** The state after the renaming loop, from the state after the ensurer. *)
Local Lemma after_rename_g (s1 : state) :
  (∀ t, t ∈ ACC_TRACK_FOLDERS → is_dir (fs s1) (os_path_join carPath t) = true) →
  (∀ t n, fs s1 !! os_path_join (os_path_join carPath t) n
          = fs s !! os_path_join (os_path_join carPath t) n) →
  rename_loop carPath ACC_TRACK_FOLDERS [] s1
  = (Ok [dst], set_fs (<[dst := File data]> (delete src (fs s1))) (OpRename src dst) s1).
Proof.
  intros Hdirs Hsame.
  assert (Hnil1 : ∀ t, t ∈ ACC_TRACK_FOLDERS → t ≠ A →
            listing (fs s1) (os_path_join carPath t) true false = []).
  { intros t Ht Hne. apply listing_files_nil. intros n.
    destruct (is_file (fs s1) _) eqn:E; [|done].
    unfold is_file in E. rewrite Hsame in E.
    by destruct (files_before_g t n Ht E). }
  destruct (list_elem_of_split _ _ HA) as (l1 & l2 & Hsplit).
  pose proof ACC_TRACK_FOLDERS_NoDup as Hnd. rewrite Hsplit in Hnd.
  apply NoDup_app in Hnd as (_ & Hn1 & Hnd2). apply NoDup_cons in Hnd2 as [Hn2 _].
  assert (Hl1 : Forall (λ t, t ≠ A ∧ t ∈ ACC_TRACK_FOLDERS) l1).
  { apply Forall_forall. intros t Ht. split.
    - intros ->. apply (Hn1 A Ht). left.
    - rewrite Hsplit. apply elem_of_app. by left. }
  assert (Hl2 : Forall (λ t, t ≠ A ∧ t ∈ ACC_TRACK_FOLDERS) l2).
  { apply Forall_forall. intros t Ht. split.
    - by intros ->.
    - rewrite Hsplit. apply elem_of_app. right. by right. }
  rewrite Hsplit. change (A :: l2) with ([A] ++ l2). unfold rename_loop.
  rewrite for_fold_app. fold (rename_loop carPath l1 [] s1).
  rewrite rename_loop_empty.
  2:{ eapply Forall_impl; [exact Hl1|].
      intros t [Hne Ht]. split; [by apply Hdirs|by apply Hnil1]. }
  rewrite for_fold_app. fold (rename_loop carPath [A] [] s1).
  rewrite (rename_loop_one carPath A setup [] data s1).
  - set (s2 := set_fs (<[dst := File data]> (delete src (fs s1))) (OpRename src dst) s1).
    change (rename_loop carPath l2 [dst] s2 = (Ok [dst], s2)).
    rewrite rename_loop_empty; [done|].
    eapply Forall_impl; [exact Hl2|].
    intros t [Hne Ht]. split.
    + unfold is_dir. simpl.
      rewrite lookup_insert_ne, lookup_delete_ne;
        [by apply Hdirs| |];
        apply os_path_join2_ne_join.
    + apply listing_files_nil. intros n.
      unfold is_file. simpl.
      rewrite lookup_insert_ne, lookup_delete_ne.
      * specialize (Hnil1 t Ht Hne).
        rewrite listing_files_nil in Hnil1. apply Hnil1.
      * intros Heq. apply os_path_join_inj in Heq as [Heq _].
        apply os_path_join_inj in Heq as [_ Heq]. by subst.
      * intros Heq. apply os_path_join_inj in Heq as [Heq _].
        apply os_path_join_inj in Heq as [_ Heq]. by subst.
  - apply src_ne_dst_g.
  - apply Hdirs, HA.
  - apply listing_files_singleton. intros n.
    unfold is_file. rewrite Hsame. fold (is_file (fs s) (os_path_join (os_path_join carPath A) n)).
    split.
    + intros Hf. by destruct (files_before_g A n HA Hf).
    + intros ->. unfold is_file. fold src. by rewrite Hsrc.
  - rewrite Hsame. exact Hsrc.
  - unfold is_dir. rewrite Hsame.
    rewrite Forall_forall in Hnodir. apply (Hnodir A HA).
Qed.
(** The whole body for the car: every track ends with exactly one setup,
    the prefixed name, holding the bytes of the original. *)
Local Lemma init_car_body_one_setup :
  ∃ s', init_car_body carPath s = (Ok tt, s')
        ∧ Forall (λ t, listing (fs s') (os_path_join carPath t) true false
                         = [prefixed]
                       ∧ fs s' !! os_path_join (os_path_join carPath t)
                                     prefixed = Some (File data))
                 ACC_TRACK_FOLDERS
        ∧ OpRename src dst ∈ ops s'.
Proof.
  destruct after_ensure_g as (s1 & Hrun1 & Hdirs & Hsame).
  pose proof (after_rename_g s1 Hdirs Hsame) as Hrun2.
  set (s2 := set_fs (<[dst := File data]> (delete src (fs s1))) (OpRename src dst) s1)
    in Hrun2.
  assert (Hs2 : ∀ t n, os_path_join (os_path_join carPath t) n ≠ dst →
                       os_path_join (os_path_join carPath t) n ≠ src →
            fs s2 !! os_path_join (os_path_join carPath t) n
            = fs s !! os_path_join (os_path_join carPath t) n).
  { intros t n H1 H2. simpl.
    rewrite lookup_insert_ne, lookup_delete_ne; [apply Hsame|done|done]. }
  destruct (file_loop_ok dst prefixed carPath A data
              ACC_TRACK_FOLDERS s2) as (s3 & Hrun3 & Hall3 & Hfr & Hops).
  { simpl. by rewrite lookup_insert_eq. }
  { apply Forall_forall. intros t Ht Hne.
    assert (Hd : dst ≠ os_path_join (os_path_join carPath t) prefixed).
    { intros Heq. apply os_path_join_inj in Heq as [Heq _].
      apply os_path_join_inj in Heq as [_ Heq]. by subst. }
    split_and!; [done| |].
    - unfold is_dir. simpl.
      rewrite lookup_insert_ne, lookup_delete_ne;
        [by apply Hdirs| |]; apply os_path_join2_ne_join.
    - unfold is_dir. rewrite Hs2; [|done|].
      + rewrite Forall_forall in Hnodir. by apply Hnodir.
      + intros Heq. apply os_path_join_inj in Heq as [_ Heq].
        symmetry in Heq. by apply prefixed_ne in Heq. }
  assert (Hnew : ∀ t, t ∈ ACC_TRACK_FOLDERS →
            fs s3 !! os_path_join (os_path_join carPath t) prefixed
            = Some (File data)).
  { intros t Ht. destruct (decide (t = A)) as [->|Hne].
    - destruct (Hfr dst) as [Hx|(_ & _ & _ & _ & Hx)]; [|exact Hx].
      etrans; [exact Hx|]. simpl. by rewrite lookup_insert_eq.
    - rewrite Forall_forall in Hall3. by apply Hall3. }
  exists s3. split_and!.
  3:{ apply Hops. simpl. apply elem_of_app. right. left. }
  - unfold init_car_body, bind. rewrite Hrun1, Hrun2. simpl.
    unfold bind. unfold dst at 1. rewrite copy_loop_file_loop.
    fold dst. by rewrite Hrun3.
  - apply Forall_forall. intros t Ht. split; [|by apply Hnew].
    apply listing_files_singleton. intros n. split.
    + intros Hf.
      destruct (Hfr (os_path_join (os_path_join carPath t) n))
        as [Hx|(t' & _ & _ & Heq & _)].
      * unfold is_file in Hf. rewrite Hx in Hf.
        destruct (decide (os_path_join (os_path_join carPath t) n = dst)) as [Heq|H1].
        { by apply os_path_join_inj in Heq as [_ Heq]. }
        destruct (decide (os_path_join (os_path_join carPath t) n = src)) as [Heq|H2].
        { rewrite Heq in Hf. simpl in Hf.
          rewrite lookup_insert_ne, lookup_delete_eq in Hf; [done|].
          intros E. symmetry in E. by apply src_ne_dst_g in E. }
        rewrite Hs2 in Hf by done.
        destruct (files_before_g t n Ht Hf) as [-> ->]. done.
      * by apply os_path_join_inj in Heq as [_ Heq].
    + intros ->. unfold is_file. by rewrite Hnew.
Qed.
End Init_one_setup.

(** * Which events reach the handler *)






Lemma on_modified_outcome (em : emitter) (event : FileSystemEvent) (s : state) :
  (on_modified em event s).1 = Ok tt ∨ ∃ e, (on_modified em event s).1 = Raise e.
Proof.
  rewrite on_modified_eq. simpl.
  destruct (on_modified_block event (set_paused true s)) as [[[]|e] sb]; simpl; eauto.
Qed.

Section Dispatched.
Variable allowed : FileSystemEvent → Prop.



End Dispatched.



(** * The claims of the specification *)

(** ** Directory Ensurer *)

(** C8. The Directory Ensurer is idempotent.  A second run started in the
    state the first run left repeats the first run's outcome and leaves
    that state as it is: same file system, no further operation recorded.
    For a car directory in which no track name is taken by a regular file,
    the first run succeeds and all fifteen track directories exist after
    it. *)
Theorem create_track_dirs_idempotent (carDir : path) (s : state) :
  let first := create_track_dirs carDir s in
  create_track_dirs carDir first.2 = first
  ∧ (is_dir (fs s) carDir = true →
     Forall (λ t, is_file (fs s) (os_path_join carDir t) = false) ACC_TRACK_FOLDERS →
     first.1 = Ok tt
     ∧ Forall (λ t, is_dir (fs first.2) (os_path_join carDir t) = true)
              ACC_TRACK_FOLDERS).
Proof.
  intros first. subst first. rewrite create_track_dirs_loop. split.
  - destruct (ensure_loop carDir ACC_TRACK_FOLDERS s) as [r s1] eqn:E.
    simpl. by apply ensure_loop_rerun in E.
  - intros Hcar Hfree.
    destruct (ensure_loop_ok carDir ACC_TRACK_FOLDERS s Hcar Hfree) as (s1 & -> & Hall).
    by split.
Qed.

Lemma create_track_dirs_idempotent_witness :
  (create_track_dirs Car (mk_state base_fs)).1 = Ok tt
  ∧ Forall (λ t, is_dir (fs (create_track_dirs Car (mk_state base_fs)).2)
                        (os_path_join Car t) = true) ACC_TRACK_FOLDERS.
Proof.
  apply (proj2 (create_track_dirs_idempotent Car (mk_state base_fs))).
  - vm_compute. reflexivity.
  - each_track ltac:(vm_compute; reflexivity).
Defined.

(** ** Root-level events *)

(** C6. An event whose resolved car segment is the reserved name "Setups"
    is dropped: the handler returns normally, the file system is the one it
    started with, and no file system operation was performed (no directory
    created, no file copied, none removed). *)
Theorem on_modified_ignores_setups (em : emitter) (event : FileSystemEvent) (s : state) :
  event_carName event = "Setups" →
  ∃ s', on_modified em event s = (Ok tt, s') ∧ fs s' = fs s ∧ ops s' = ops s.
Proof.
  unfold event_carName, event_trackDir. intros Hcar.
  unfold on_modified, with_, ignore_events, bind, pause, concurrently,
    on_modified_block. simpl.
  destruct (is_directory event); simpl in *; rewrite Hcar; simpl;
    eexists; (split; [reflexivity|]); by split.
Qed.

Lemma on_modified_ignores_setups_witness :
  ∃ s', on_modified quiet
          {| event_type := Modified; src_path := Root ++ ["ferrari_488_gt3"];
             is_directory := true |} (mk_state base_fs) = (Ok tt, s')
        ∧ fs s' = base_fs ∧ ops s' = [].
Proof.
  apply (on_modified_ignores_setups quiet
           {| event_type := Modified; src_path := Root ++ ["ferrari_488_gt3"];
              is_directory := true |} (mk_state base_fs)).
  vm_compute. reflexivity.
Defined.

(** ** Directory-level events *)

(** C4. A directory-level pass never overwrites an existing file.  For a
    directory event, a name [setup] of a regular file in the source track
    directory and any track directory that already holds a regular file of
    that name: whatever the outcome of the handler, that file is there
    afterwards with the bytes it had. *)
Theorem directory_pass_never_overwrites (em : emitter) (event : FileSystemEvent)
    (s : state) (track setup : string) (data : list byte) :
  is_directory event = true →
  is_file (fs s) (os_path_join (src_path event) setup) = true →
  fs s !! os_path_join (os_path_join (os_path_dirname (src_path event)) track) setup
    = Some (File data) →
  fs (on_modified em event s).2
     !! os_path_join (os_path_join (os_path_dirname (src_path event)) track) setup
    = Some (File data).
Proof.
  intros Hdir Hsrc Htgt.
  destruct (on_modified_fs em event s) as [-> _].
  by apply on_modified_block_directory_keeps.
Qed.

Lemma directory_pass_never_overwrites_witness :
  fs (on_modified quiet (dir_event (Car ++ ["monza"]))
        (mk_state (<[Car ++ ["Spa"; "a.json"] := File bytes2]>
                     (with_setup "a.json" bytes1 (with_tracks base_fs))))).2
     !! (Car ++ ["Spa"; "a.json"])
  = Some (File bytes2).
Proof.
  apply (directory_pass_never_overwrites quiet (dir_event (Car ++ ["monza"]))
           (mk_state (<[Car ++ ["Spa"; "a.json"] := File bytes2]>
                        (with_setup "a.json" bytes1 (with_tracks base_fs))))
           "Spa" "a.json" bytes2).
  - reflexivity.
  - vm_compute. reflexivity.
  - vm_compute. reflexivity.
Defined.

(** C1 (the code departs from the claim).  A directory event on [monza],
    which holds the new setup [a.json] that no other track has.  The
    directory branch reads the local [setupPath], which only the file branch
    binds: the first copy raises [UnboundLocalError].  No file system
    operation is performed and [a.json] is still missing from the other
    tracks. *)
Theorem directory_pass_copy_raises :
  let res := on_modified quiet (dir_event (Car ++ ["monza"])) (mk_state fs_new_setup) in
  res.1 = Raise UnboundLocalError
  ∧ ops res.2 = []
  ∧ Forall (λ t, t ≠ "monza" → fs res.2 !! (Car ++ [t; "a.json"]) = None)
           ACC_TRACK_FOLDERS.
Proof.
  cbv zeta. split_and!.
  - vm_compute. reflexivity.
  - vm_compute. reflexivity.
  - each_track ltac:(first [ intros _; vm_compute; reflexivity
                            | intros Hne; by destruct Hne ]).
Qed.

(** C5 (the code departs from the claim).  [b.json] was renamed to [a.json]
    in [monza]: the directory event finds [a.json] missing in [Barcelona],
    the copy raises as in C1, and the removals that come after the copies
    are never reached.  [b.json] is still in every other track. *)
Theorem directory_pass_deletion_not_reached :
  let res := on_modified quiet (dir_event (Car ++ ["monza"])) (mk_state fs_renamed_setup) in
  res.1 = Raise UnboundLocalError
  ∧ ops res.2 = []
  ∧ is_file (fs res.2) (Car ++ ["monza"; "b.json"]) = false
  ∧ Forall (λ t, t ≠ "monza" → is_file (fs res.2) (Car ++ [t; "b.json"]) = true)
           ACC_TRACK_FOLDERS.
Proof.
  cbv zeta. split_and!.
  - vm_compute. reflexivity.
  - vm_compute. reflexivity.
  - vm_compute. reflexivity.
  - each_track ltac:(first [ intros _; vm_compute; reflexivity
                            | intros Hne; by destruct Hne ]).
Qed.

(** ** The suppression gate *)

(** C2 (the code departs from the claim).  When the protected block
    raises, [ignore_events] does not call [resume]: the [with] statement
    ends in the state the block raised in.  For the handler: the exception
    leaves [on_modified], the observer is still paused, and pausing is the
    only thing the observer did. *)
Theorem ignore_events_no_resume_on_error (em : emitter) (block : M unit)
    (event : FileSystemEvent) (s : state) (e : exn) :
  (∀ s1, block (set_paused true s) = (Raise e, s1) →
         with_ (ignore_events em) block s = (Raise e, s1))
  ∧ ((on_modified_block event (set_paused true s)).1 = Raise e →
     let res := on_modified em event s in
     res.1 = Raise e
     ∧ paused res.2 = true
     ∧ obs_log res.2 = obs_log s ++ [ASetPaused true]).
Proof.
  split.
  - intros s1 Hblock. unfold with_, ignore_events, bind, pause. simpl.
    by rewrite Hblock.
  - intros Hraise res. subst res. rewrite on_modified_eq. simpl.
    pose proof (on_modified_block_is_paused event (set_paused true s)) as Hp.
    pose proof (on_modified_block_obs_log event (set_paused true s)) as Hl.
    destruct (on_modified_block event (set_paused true s)) as [r sb].
    simpl in *. subst r. simpl. unfold paused. simpl. by rewrite Hp, Hl.
Qed.

Lemma ignore_events_no_resume_on_error_witness :
  (on_modified quiet (dir_event (Car ++ ["monza"])) (mk_state fs_new_setup)).1
    = Raise UnboundLocalError
  ∧ paused (on_modified quiet (dir_event (Car ++ ["monza"])) (mk_state fs_new_setup)).2
    = true
  ∧ obs_log (on_modified quiet (dir_event (Car ++ ["monza"])) (mk_state fs_new_setup)).2
    = [] ++ [ASetPaused true].
Proof.
  apply (proj2 (ignore_events_no_resume_on_error quiet (ret tt)
                  (dir_event (Car ++ ["monza"])) (mk_state fs_new_setup)
                  UnboundLocalError)).
  vm_compute. reflexivity.
Defined.




(** ** Single-file events *)

(** C3. A file event on an existing setup [name] of track [trackA] in a car
    directory (not named "Setups", its track names not taken by regular
    files, [name] not the name of a directory in another track): the handler
    ends normally, it has copied the source to [name] in every other known
    track, and there the file now has exactly the source's bytes, whether
    or not a file of that name existed before.  The source is unchanged. *)
Theorem file_event_overwrites (em : emitter) (event : FileSystemEvent)
    (carDir : path) (trackA name : string) (data : list byte) (s : state) :
  is_directory event = false →
  src_path event = os_path_join (os_path_join carDir trackA) name →
  os_path_basename carDir ≠ "Setups" →
  is_dir (fs s) carDir = true →
  Forall (λ t, is_file (fs s) (os_path_join carDir t) = false) ACC_TRACK_FOLDERS →
  fs s !! src_path event = Some (File data) →
  Forall (λ t, is_dir (fs s) (os_path_join (os_path_join carDir t) name) = false)
         ACC_TRACK_FOLDERS →
  ∃ s', on_modified em event s = (Ok tt, s')
        ∧ Forall (λ t, t ≠ trackA →
                       fs s' !! os_path_join (os_path_join carDir t) name
                         = Some (File data)
                       ∧ OpCopyfile (src_path event)
                           (os_path_join (os_path_join carDir t) name) ∈ ops s')
                 ACC_TRACK_FOLDERS
        ∧ fs s' !! src_path event = Some (File data).
Proof.
  intros Hfile Hpath Hcar Hdir Hfree Hsrc Hnodir.
  assert (Hblock : ∃ sb, on_modified_block event (set_paused true s) = (Ok tt, sb)
            ∧ Forall (λ t, t ≠ trackA →
                       fs sb !! os_path_join (os_path_join carDir t) name
                         = Some (File data)
                       ∧ OpCopyfile (src_path event)
                           (os_path_join (os_path_join carDir t) name) ∈ ops sb)
                 ACC_TRACK_FOLDERS
            ∧ fs sb !! src_path event = Some (File data)).
  { rewrite (on_modified_block_file _ Hfile). simpl.
    unfold event_carName, event_trackDir, os_path_split. rewrite Hfile. simpl.
    rewrite Hpath, !os_path_dirname_join, os_path_basename_join.
    destruct (decide (os_path_basename carDir = "Setups")); [done|].
    unfold bind at 1. rewrite create_track_dirs_loop.
    destruct (ensure_loop_ok carDir ACC_TRACK_FOLDERS (set_paused true s) Hdir Hfree)
      as (s1 & Hrun & Hall).
    rewrite Hrun. rewrite Hpath in Hsrc.
    destruct (file_loop_ok (os_path_join (os_path_join carDir trackA) name) name
                carDir trackA data ACC_TRACK_FOLDERS s1)
      as (s2 & Hrun2 & Hall2 & Hfr & _).
    - by eapply ensure_loop_extends.
    - apply Forall_forall. intros t Ht Hne.
      rewrite Forall_forall in Hall, Hnodir. split_and!.
      + intros Heq. apply os_path_join_inj in Heq as [Heq _].
        apply os_path_join_inj in Heq as [_ Heq]. by subst.
      + by apply Hall.
      + specialize (Hnodir t Ht).
        destruct (ensure_loop_changes carDir ACC_TRACK_FOLDERS _ _ _
                    (os_path_join (os_path_join carDir t) name) Hrun)
          as [Heq|(t' & _ & Heq & _)].
        * unfold is_dir in *. by rewrite Heq.
        * by apply os_path_join2_ne_join in Heq.
    - exists s2. rewrite os_path_basename_join. split_and!; [done|done|].
      destruct (Hfr (os_path_join (os_path_join carDir trackA) name))
        as [Hx|(_ & _ & _ & _ & Hx)]; [|done].
      rewrite Hx. by eapply ensure_loop_extends. }
  destruct Hblock as (sb & Hrun & Hall & Hsrc').
  rewrite on_modified_eq, Hrun. simpl. eexists. split; [reflexivity|].
  simpl. by split.
Qed.

Lemma file_event_overwrites_witness :
  ∃ s', on_modified quiet (file_event (Car ++ ["monza"; "a.json"]))
          (mk_state (<[Car ++ ["Spa"; "a.json"] := File bytes2]> fs_new_setup))
        = (Ok tt, s')
        ∧ Forall (λ t, t ≠ "monza" →
                       fs s' !! os_path_join (os_path_join Car t) "a.json"
                         = Some (File bytes1)
                       ∧ OpCopyfile (Car ++ ["monza"; "a.json"])
                           (os_path_join (os_path_join Car t) "a.json") ∈ ops s')
                 ACC_TRACK_FOLDERS
        ∧ fs s' !! (Car ++ ["monza"; "a.json"]) = Some (File bytes1).
Proof.
  apply (file_event_overwrites quiet (file_event (Car ++ ["monza"; "a.json"]))
           Car "monza" "a.json" bytes1
           (mk_state (<[Car ++ ["Spa"; "a.json"] := File bytes2]> fs_new_setup))).
  - reflexivity.
  - reflexivity.
  - vm_compute. discriminate.
  - vm_compute. reflexivity.
  - each_track ltac:(vm_compute; reflexivity).
  - vm_compute. reflexivity.
  - each_track ltac:(vm_compute; reflexivity).
Defined.

(** ** Bulk Initializer *)

(** C9. A car under the root whose only setup is [setup1.json] in [monza]
    (no track name of the car is taken by a regular file, and
    [monza-setup1.json] is not the name of a directory in a track).
    Whenever [init] ends normally, every one of the car's fifteen track
    directories, [monza] included, lists exactly one setup,
    [monza-setup1.json], holding the bytes of the original, and in [monza]
    the original was renamed, not copied.  When the car is the only one
    under the root, [init] does end normally. *)
Theorem init_single_setup (setupsPath : path) (car : string) (data : list byte)
    (s : state) :
  let carPath := os_path_join setupsPath car in
  is_dir (fs s) setupsPath = true →
  is_dir (fs s) carPath = true →
  Forall (λ t, is_file (fs s) (os_path_join carPath t) = false) ACC_TRACK_FOLDERS →
  fs s !! os_path_join (os_path_join carPath "monza") "setup1.json" = Some (File data) →
  only_setup1_in_monza (fs s) carPath →
  Forall (λ t, is_dir (fs s)
                 (os_path_join (os_path_join carPath t) "monza-setup1.json") = false)
         ACC_TRACK_FOLDERS →
  (∀ s', init setupsPath s = (Ok tt, s') →
         Forall (λ t, listing (fs s') (os_path_join carPath t) true false
                        = ["monza-setup1.json"]
                      ∧ fs s' !! os_path_join (os_path_join carPath t)
                                    "monza-setup1.json" = Some (File data))
                ACC_TRACK_FOLDERS
         ∧ OpRename (os_path_join (os_path_join carPath "monza") "setup1.json")
                    (os_path_join (os_path_join carPath "monza") "monza-setup1.json")
             ∈ ops s')
  ∧ (listing (fs s) setupsPath false true = [car] →
     ∃ s', init setupsPath s = (Ok tt, s')).
Proof.
  intros carPath Hroot Hcar Hfree Hsrc Honly Hnodir.
  assert (Hinit : init setupsPath s
                  = for_each (listing (fs s) setupsPath false true)
                      (init_car setupsPath) s).
  { unfold init, bind. rewrite list_dir_eq. unfold is_dir in Hroot.
    by destruct (fs s !! setupsPath) as [[]|]. }
  rewrite Hinit. split.
  - intros s' Hrun.
    eapply (init_cars_single_setup setupsPath car data); try done.
    + by apply elem_of_listing_dirs.
    + apply NoDup_listing.
  - intros ->. simpl. unfold bind. rewrite init_car_eq. fold carPath.
    destruct (init_car_body_single_setup carPath data s Hcar Hfree Hsrc Honly Hnodir)
      as (s' & -> & _).
    by exists s'.
Qed.

Lemma init_single_setup_witness :
  (∀ s', init Root (mk_state (fs_single_setup bytes1)) = (Ok tt, s') →
         Forall (λ t, listing (fs s') (os_path_join Car t) true false
                        = ["monza-setup1.json"]
                      ∧ fs s' !! os_path_join (os_path_join Car t)
                                    "monza-setup1.json" = Some (File bytes1))
                ACC_TRACK_FOLDERS
         ∧ OpRename (os_path_join (os_path_join Car "monza") "setup1.json")
                    (os_path_join (os_path_join Car "monza") "monza-setup1.json")
             ∈ ops s')
  ∧ ∃ s', init Root (mk_state (fs_single_setup bytes1)) = (Ok tt, s').
Proof.
  destruct (init_single_setup Root "ferrari_488_gt3" bytes1
              (mk_state (fs_single_setup bytes1))) as [Hres Hruns].
  - vm_compute. reflexivity.
  - vm_compute. reflexivity.
  - each_track ltac:(vm_compute; reflexivity).
  - vm_compute. reflexivity.
  - unfold only_setup1_in_monza. each_track ltac:(vm_compute; reflexivity).
  - each_track ltac:(vm_compute; reflexivity).
  - split; [exact Hres|]. apply Hruns. vm_compute. reflexivity.
Defined.

(** C10. The initializer is not idempotent.  In the scenario of C9, for
    any bytes of the setup, both runs end normally.  After the first run
    [monza] lists [monza-setup1.json]; the second run prefixes it again:
    [monza] then holds [monza-monza-setup1.json] with the original bytes,
    every track [t] holds [t-monza-setup1.json], and no track holds
    [monza-setup1.json] any more.  The file system after the second run is
    not the one after the first. *)
Theorem init_not_idempotent (data : list byte) :
  let first := init Root (mk_state (fs_single_setup data)) in
  let second := init Root first.2 in
  first.1 = Ok tt
  ∧ second.1 = Ok tt
  ∧ listing (fs first.2) (Car ++ ["monza"]) true false = ["monza-setup1.json"]
  ∧ fs second.2 !! (Car ++ ["monza"; "monza-monza-setup1.json"]) = Some (File data)
  ∧ Forall (λ t, fs second.2 !! (Car ++ [t; t +:+ "-monza-setup1.json"])
                   = Some (File data)
                 ∧ fs second.2 !! (Car ++ [t; "monza-setup1.json"]) = None)
           ACC_TRACK_FOLDERS
  ∧ fs second.2 ≠ fs first.2.
Proof.
  cbv zeta. split_and!.
  - vm_compute. reflexivity.
  - vm_compute. reflexivity.
  - vm_compute. reflexivity.
  - vm_compute. reflexivity.
  - each_track ltac:(split; vm_compute; reflexivity).
  - intros Heq.
    apply (f_equal (λ m, is_file m (Car ++ ["monza"; "monza-setup1.json"]))) in Heq.
    vm_compute in Heq. discriminate.
Qed.

(** * Further properties of the code *)

(** ** [list_dir] *)

(** X1. On a directory [list_dir] returns, without changing the state, a
    duplicate-free list holding exactly the names under the path that are
    regular files (when [files] is set) or directories (when [dirs] is
    set); with neither flag, the defaults, the list is empty. *)
Theorem list_dir_spec (p : path) (files dirs : bool) (s : state) :
  fs s !! p = Some Dir →
  ∃ l, list_dir p files dirs s = (Ok l, s)
       ∧ NoDup l
       ∧ (∀ n, n ∈ l ↔ (files = true ∧ is_file (fs s) (os_path_join p n) = true)
                        ∨ (dirs = true ∧ is_dir (fs s) (os_path_join p n) = true))
       ∧ (files = false → dirs = false → l = []).
Proof.
  intros Hp. rewrite list_dir_eq, Hp. eexists. split_and!; [done| | |].
  - apply NoDup_listing.
  - intros n. apply elem_of_listing.
  - intros -> ->. apply nil_of_no_elem. intros n Hn.
    apply elem_of_listing in Hn as [[? _]|[? _]]; done.
Qed.

Lemma list_dir_spec_witness :
  ∃ l, list_dir (Car ++ ["monza"]) true false (mk_state fs_new_setup)
       = (Ok l, mk_state fs_new_setup)
       ∧ NoDup l
       ∧ (∀ n, n ∈ l ↔
               (true = true
                ∧ is_file (fs (mk_state fs_new_setup))
                    (os_path_join (Car ++ ["monza"]) n) = true)
               ∨ (false = true
                  ∧ is_dir (fs (mk_state fs_new_setup))
                      (os_path_join (Car ++ ["monza"]) n) = true))
       ∧ (true = false → false = false → l = []).
Proof.
  apply (list_dir_spec (Car ++ ["monza"]) true false (mk_state fs_new_setup)).
  vm_compute. reflexivity.
Defined.

(** ** [create_track_dirs] *)

(** X2. Whatever its outcome, [create_track_dirs] only adds: every entry
    that existed is still there unchanged, every new entry is a directory
    named after a known track directly under the car directory, and the
    observer is left alone. *)
Theorem create_track_dirs_only_adds (carDir : path) (s : state) :
  let res := create_track_dirs carDir s in
  (∀ p n, fs s !! p = Some n → fs res.2 !! p = Some n)
  ∧ (∀ p, fs res.2 !! p = fs s !! p
          ∨ (fs s !! p = None ∧ fs res.2 !! p = Some Dir
             ∧ ∃ t, t ∈ ACC_TRACK_FOLDERS ∧ p = os_path_join carDir t))
  ∧ is_paused res.2 = is_paused s
  ∧ event_queue res.2 = event_queue s
  ∧ obs_log res.2 = obs_log s.
Proof.
  intros res. subst res.
  destruct (create_track_dirs carDir s) as [r s'] eqn:E. simpl.
  split_and!.
  - intros p n. by eapply create_track_dirs_preserves_entry.
  - intros p. rewrite create_track_dirs_loop in E.
    destruct (ensure_loop_changes _ _ _ _ _ p E) as [?|(t & ? & ? & ? & ?)];
      [by left|right; eauto 10].
  - by eapply (preserves_obs_create_track_dirs (λ x, is_paused x = is_paused s)).
  - by eapply (preserves_obs_create_track_dirs (λ x, event_queue x = event_queue s)).
  - by eapply (preserves_obs_create_track_dirs (λ x, obs_log x = obs_log s)).
Qed.

(** X3. In a car directory where no track name is taken by a regular file,
    [create_track_dirs] ends normally having performed exactly one [mkdir]
    for each track whose directory was missing, in the declared order of
    the tracks, and no other operation. *)
Theorem create_track_dirs_creates_missing (carDir : path) (s : state) :
  is_dir (fs s) carDir = true →
  Forall (λ t, is_file (fs s) (os_path_join carDir t) = false) ACC_TRACK_FOLDERS →
  let res := create_track_dirs carDir s in
  res.1 = Ok tt
  ∧ ops res.2 = ops s ++ map (λ t, OpMkdir (os_path_join carDir t))
                             (missing_tracks (fs s) carDir ACC_TRACK_FOLDERS).
Proof.
  intros Hcar Hfree res. subst res. rewrite create_track_dirs_loop.
  destruct (ensure_loop_ok carDir ACC_TRACK_FOLDERS s Hcar Hfree) as (s' & Hrun & _).
  rewrite Hrun. split; [done|]. cbn [fst snd].
  apply ensure_loop_ops; [apply ACC_TRACK_FOLDERS_NoDup|done].
Qed.

Lemma create_track_dirs_creates_missing_witness :
  (create_track_dirs Car (mk_state (fs_single_setup bytes1))).1 = Ok tt
  ∧ ops (create_track_dirs Car (mk_state (fs_single_setup bytes1))).2
    = [] ++ map (λ t, OpMkdir (os_path_join Car t))
                (missing_tracks (fs_single_setup bytes1) Car ACC_TRACK_FOLDERS).
Proof.
  apply (create_track_dirs_creates_missing Car (mk_state (fs_single_setup bytes1))).
  - vm_compute. reflexivity.
  - each_track ltac:(vm_compute; reflexivity).
Defined.

(** X4. When the car path is not a directory and [Barcelona] is not a
    directory under it, [create_track_dirs] raises at the first track and
    changes nothing: [FileNotFoundError] when the car path does not exist,
    [NotADirectoryError] when it is a regular file. *)
Theorem create_track_dirs_without_car_dir (carDir : path) (s : state) :
  is_dir (fs s) carDir = false →
  is_dir (fs s) (os_path_join carDir "Barcelona") = false →
  create_track_dirs carDir s
  = (Raise (match fs s !! carDir with
            | None => FileNotFoundError
            | Some _ => NotADirectoryError
            end), s).
Proof.
  intros Hcar Hb. rewrite create_track_dirs_loop. unfold ACC_TRACK_FOLDERS.
  rewrite ensure_loop_cons, Hb. unfold os_mkdir.
  rewrite os_path_dirname_join. unfold is_dir in Hcar.
  by destruct (fs s !! carDir) as [[]|].
Qed.

Lemma create_track_dirs_without_car_dir_witness :
  create_track_dirs (Root ++ ["no_such_car"]) (mk_state base_fs)
  = (Raise (match fs (mk_state base_fs) !! (Root ++ ["no_such_car"]) with
            | None => FileNotFoundError
            | Some _ => NotADirectoryError
            end), mk_state base_fs).
Proof.
  apply (create_track_dirs_without_car_dir (Root ++ ["no_such_car"]) (mk_state base_fs)).
  - vm_compute. reflexivity.
  - vm_compute. reflexivity.
Defined.

(** X5. When a track name is taken by a regular file, [create_track_dirs]
    raises [FileExistsError] at that track: the directories of the tracks
    declared before it exist by then, the file is still there, and the
    tracks declared after it are not looked at. *)
Theorem create_track_dirs_blocked_by_file (carDir : path) (s : state)
    (before : list string) (t : string) (after : list string) :
  ACC_TRACK_FOLDERS = before ++ t :: after →
  is_dir (fs s) carDir = true →
  Forall (λ t', is_file (fs s) (os_path_join carDir t') = false) before →
  is_file (fs s) (os_path_join carDir t) = true →
  let res := create_track_dirs carDir s in
  res.1 = Raise FileExistsError
  ∧ Forall (λ t', is_dir (fs res.2) (os_path_join carDir t') = true) before
  ∧ fs res.2 !! os_path_join carDir t = fs s !! os_path_join carDir t
  ∧ Forall (λ t', fs res.2 !! os_path_join carDir t'
                  = fs s !! os_path_join carDir t') after.
Proof.
  intros Hsplit Hcar Hfree Hfile res. subst res.
  rewrite create_track_dirs_loop, Hsplit, ensure_loop_app.
  destruct (ensure_loop_ok carDir before s Hcar Hfree) as (s1 & Hrun & Hall).
  rewrite Hrun. rewrite ensure_loop_cons.
  assert (Hsame : ∀ t', t' ∉ before →
            fs s1 !! os_path_join carDir t' = fs s !! os_path_join carDir t').
  { intros t' Hnin.
    destruct (ensure_loop_changes _ _ _ _ _ (os_path_join carDir t') Hrun)
      as [?|(t'' & Hin & Heq & _)]; [done|].
    apply os_path_join_inj in Heq as [_ ->]. done. }
  pose proof ACC_TRACK_FOLDERS_NoDup as Hnd. rewrite Hsplit in Hnd.
  apply NoDup_app in Hnd as (_ & Hdisj & _).
  assert (Ht : t ∉ before) by (intros Hin; apply (Hdisj t Hin); left).
  unfold is_file in Hfile.
  destruct (fs s !! os_path_join carDir t) as [[d|]|] eqn:Et; try done.
  pose proof (Hsame t Ht) as Ht1. rewrite Et in Ht1.
  assert (is_dir (fs s1) (os_path_join carDir t) = false) as ->
    by (unfold is_dir; by rewrite Ht1).
  unfold os_mkdir. rewrite os_path_dirname_join, Ht1.
  assert (fs s1 !! carDir = Some Dir) as ->.
  { eapply ensure_loop_extends; [done|]. unfold is_dir in Hcar.
    by destruct (fs s !! carDir) as [[]|]. }
  simpl. split_and!; [done|done|done|].
  apply Forall_forall. intros t' Hin. apply Hsame.
  intros Hin'. apply (Hdisj t' Hin'). by right.
Qed.

Lemma create_track_dirs_blocked_by_file_witness :
  (create_track_dirs Car (mk_state fs_track_is_file)).1 = Raise FileExistsError
  ∧ Forall (λ t', is_dir (fs (create_track_dirs Car (mk_state fs_track_is_file)).2)
                    (os_path_join Car t') = true) ["Barcelona"]
  ∧ fs (create_track_dirs Car (mk_state fs_track_is_file)).2
       !! os_path_join Car "brands_hatch"
    = fs (mk_state fs_track_is_file) !! os_path_join Car "brands_hatch"
  ∧ Forall (λ t', fs (create_track_dirs Car (mk_state fs_track_is_file)).2
                     !! os_path_join Car t'
                  = fs (mk_state fs_track_is_file) !! os_path_join Car t')
           (drop 2 ACC_TRACK_FOLDERS).
Proof.
  apply (create_track_dirs_blocked_by_file Car (mk_state fs_track_is_file)
           ["Barcelona"] "brands_hatch" (drop 2 ACC_TRACK_FOLDERS)).
  - reflexivity.
  - vm_compute. reflexivity.
  - repeat (apply Forall_cons; split; [vm_compute; reflexivity|]). constructor.
  - vm_compute. reflexivity.
Defined.

(** ** [on_modified] *)

(** X6. When the protected block ends normally (also by the early
    [return]), the handler ends normally with the observer re-enabled and
    the queue empty, whatever was queued before or during the call: events
    of the user that were waiting are discarded with the handler's own.
    The observer paused, slept for its timeout, cleared the queue and
    resumed, in that order. *)
Theorem on_modified_resumes_on_normal_exit (em : emitter) (event : FileSystemEvent)
    (s : state) :
  (on_modified_block event (set_paused true s)).1 = Ok tt →
  let res := on_modified em event s in
  res.1 = Ok tt
  ∧ paused res.2 = false
  ∧ event_queue res.2 = []
  ∧ obs_log res.2
    = obs_log s ++ [ASetPaused true; ASleep (timeout s); AClearQueue; ASetPaused false].
Proof.
  intros Hok res. subst res. rewrite on_modified_eq. simpl.
  pose proof (on_modified_block_obs_log event (set_paused true s)) as Hl.
  pose proof (on_modified_block_timeout event (set_paused true s)) as Ht.
  destruct (on_modified_block event (set_paused true s)) as [r sb].
  simpl in *. subst r. simpl. split_and!; try done.
  rewrite Hl, Ht. simpl. by rewrite <- !app_assoc.
Qed.

Lemma on_modified_resumes_on_normal_exit_witness :
  (on_modified quiet (file_event (Car ++ ["monza"; "a.json"]))
     (set_queue [dir_event (Car ++ ["Spa"])] (mk_state fs_new_setup))).1 = Ok tt
  ∧ paused (on_modified quiet (file_event (Car ++ ["monza"; "a.json"]))
              (set_queue [dir_event (Car ++ ["Spa"])] (mk_state fs_new_setup))).2
    = false
  ∧ event_queue (on_modified quiet (file_event (Car ++ ["monza"; "a.json"]))
                   (set_queue [dir_event (Car ++ ["Spa"])] (mk_state fs_new_setup))).2
    = []
  ∧ obs_log (on_modified quiet (file_event (Car ++ ["monza"; "a.json"]))
               (set_queue [dir_event (Car ++ ["Spa"])] (mk_state fs_new_setup))).2
    = [] ++ [ASetPaused true; ASleep 1; AClearQueue; ASetPaused false].
Proof.
  apply (on_modified_resumes_on_normal_exit quiet
           (file_event (Car ++ ["monza"; "a.json"]))
           (set_queue [dir_event (Car ++ ["Spa"])] (mk_state fs_new_setup))).
  vm_compute. reflexivity.
Defined.

(** X7. Whatever the event and the outcome, the handler changes nothing
    outside the car directory it resolved (the parent of the track
    directory): every other entry of the file system is as before. *)
Theorem on_modified_changes_only_under_car (em : emitter) (event : FileSystemEvent)
    (s : state) (p : path) :
  ¬ under (os_path_dirname (event_trackDir event)) p →
  fs (on_modified em event s).2 !! p = fs s !! p.
Proof.
  intros Hp. destruct (on_modified_fs em event s) as [-> _].
  destruct (on_modified_block event (set_paused true s)) as [r sb] eqn:E.
  destruct (cou_on_modified_block event _ _ _ E) as [H _]. simpl. by rewrite H.
Qed.

Lemma on_modified_changes_only_under_car_witness :
  fs (on_modified quiet (file_event (Car ++ ["monza"; "a.json"]))
        (mk_state fs_new_setup)).2 !! Root
  = fs (mk_state fs_new_setup) !! Root.
Proof.
  apply (on_modified_changes_only_under_car quiet
           (file_event (Car ++ ["monza"; "a.json"])) (mk_state fs_new_setup) Root).
  intros [r Hr]. vm_compute in Hr. discriminate.
Defined.

(** X8. The operations of one handler call.  A directory event performs
    only [mkdir]s of known track directories and removals of files in
    known tracks other than the source: it never copies.  A file event
    performs only those [mkdir]s and copies of its own source file to its
    own name in known tracks other than its own: it never removes.  Neither
    renames anything. *)
Theorem on_modified_operations (em : emitter) (event : FileSystemEvent) (s : state) :
  let trackDir := event_trackDir event in
  let carDir := os_path_dirname trackDir in
  let trackName := os_path_basename trackDir in
  ∃ new, ops (on_modified em event s).2 = ops s ++ new
         ∧ Forall (if is_directory event
                   then dir_event_op carDir trackName
                   else file_event_op carDir trackName (src_path event)
                          (os_path_basename (src_path event))) new.
Proof. apply appends_on_modified. Qed.

(** X9. A directory event on track [A] of a car in which every setup of
    [A] is already a file in every known track (nothing to copy): the
    handler ends normally, and afterwards a name is a regular file in a
    known track exactly when it is one in [A].  Setups removed from [A]
    are removed everywhere. *)
Theorem directory_event_aligns_tracks (em : emitter) (event : FileSystemEvent)
    (carDir : path) (A : string) (s : state) :
  is_directory event = true →
  src_path event = os_path_join carDir A →
  os_path_basename carDir ≠ "Setups" →
  is_dir (fs s) carDir = true →
  Forall (λ t, is_file (fs s) (os_path_join carDir t) = false) ACC_TRACK_FOLDERS →
  is_dir (fs s) (os_path_join carDir A) = true →
  Forall (λ t, Forall (λ x, is_file (fs s) (os_path_join (os_path_join carDir t) x)
                            = true)
                      (listing (fs s) (os_path_join carDir A) true false))
         ACC_TRACK_FOLDERS →
  ∃ s', on_modified em event s = (Ok tt, s')
        ∧ ∀ t x, t ∈ ACC_TRACK_FOLDERS →
                 is_file (fs s') (os_path_join (os_path_join carDir t) x)
                 = is_file (fs s) (os_path_join (os_path_join carDir A) x).
Proof.
  intros Hd Hpath Hcar Hcd Hfree HA Hsync.
  apply directory_pass_propagates_deletions; try done.
  intros t x Ht Hx. rewrite Forall_forall in Hsync.
  specialize (Hsync t Ht). rewrite Forall_forall in Hsync.
  by apply Hsync, elem_of_listing_files.
Qed.

Lemma directory_event_aligns_tracks_witness :
  ∃ s', on_modified quiet (dir_event (Car ++ ["monza"])) (mk_state fs_removed_setup)
        = (Ok tt, s')
        ∧ ∀ t x, t ∈ ACC_TRACK_FOLDERS →
                 is_file (fs s') (os_path_join (os_path_join Car t) x)
                 = is_file (fs (mk_state fs_removed_setup))
                     (os_path_join (os_path_join Car "monza") x).
Proof.
  apply (directory_event_aligns_tracks quiet (dir_event (Car ++ ["monza"]))
           Car "monza" (mk_state fs_removed_setup)).
  - reflexivity.
  - reflexivity.
  - vm_compute. discriminate.
  - vm_compute. reflexivity.
  - each_track ltac:(vm_compute; reflexivity).
  - vm_compute. reflexivity.
  - replace (listing (fs (mk_state fs_removed_setup)) (os_path_join Car "monza")
               true false) with ["a.json"] by (vm_compute; reflexivity).
    each_track ltac:(apply Forall_cons; split; [vm_compute; reflexivity|constructor]).
Defined.

(** X10. A directory event never changes an entry inside its own track
    directory, whatever the outcome: the source track is read, never
    written. *)
Theorem directory_event_keeps_source_track (em : emitter) (event : FileSystemEvent)
    (carDir : path) (A x : string) (s : state) :
  is_directory event = true →
  src_path event = os_path_join carDir A →
  fs (on_modified em event s).2 !! os_path_join (os_path_join carDir A) x
  = fs s !! os_path_join (os_path_join carDir A) x.
Proof.
  intros Hd Hpath. destruct (on_modified_fs em event s) as [-> _].
  destruct (on_modified_block event (set_paused true s)) as [r sb] eqn:E. simpl.
  by eapply (directory_block_keeps_source event carDir A x _ Hd Hpath _ _ _ E).
Qed.

Lemma directory_event_keeps_source_track_witness :
  fs (on_modified quiet (dir_event (Car ++ ["monza"])) (mk_state fs_renamed_setup)).2
     !! os_path_join (os_path_join Car "monza") "a.json"
  = fs (mk_state fs_renamed_setup) !! os_path_join (os_path_join Car "monza") "a.json".
Proof.
  apply (directory_event_keeps_source_track quiet (dir_event (Car ++ ["monza"]))
           Car "monza" "a.json" (mk_state fs_renamed_setup)).
  - reflexivity.
  - reflexivity.
Defined.

(** X11. A file event whose source file no longer exists (it vanished
    before the handler ran): after making sure the track directories
    exist, the first copy raises [FileNotFoundError].  The exception leaves
    the handler with the observer still paused; the only operations
    performed are the [mkdir]s of the missing track directories, so the
    copies of that setup in the other tracks are not touched. *)
Theorem file_event_source_vanished (em : emitter) (event : FileSystemEvent)
    (carDir : path) (A name : string) (s : state) :
  is_directory event = false →
  src_path event = os_path_join (os_path_join carDir A) name →
  os_path_basename carDir ≠ "Setups" →
  is_dir (fs s) carDir = true →
  Forall (λ t, is_file (fs s) (os_path_join carDir t) = false) ACC_TRACK_FOLDERS →
  fs s !! src_path event = None →
  let res := on_modified em event s in
  res.1 = Raise FileNotFoundError
  ∧ paused res.2 = true
  ∧ ops res.2 = ops s ++ map (λ t, OpMkdir (os_path_join carDir t))
                             (missing_tracks (fs s) carDir ACC_TRACK_FOLDERS).
Proof.
  intros Hfile Hpath Hcar Hdir Hfree Hsrc res. subst res.
  destruct (create_track_dirs_ok carDir (set_paused true s) Hdir Hfree)
    as (s1 & Hrun & _ & Hsame & _).
  assert (Hblock : on_modified_block event (set_paused true s)
                   = (Raise FileNotFoundError, s1)).
  { rewrite (on_modified_block_file _ Hfile). simpl.
    unfold event_carName, event_trackDir, os_path_split. rewrite Hfile. simpl.
    rewrite Hpath, !os_path_dirname_join, !os_path_basename_join.
    destruct (decide (os_path_basename carDir = "Setups")); [done|].
    unfold bind at 1. rewrite Hrun.
    apply file_loop_missing_source; [|apply other_track_exists].
    rewrite Hsame. by rewrite <- Hpath. }
  pose proof (on_modified_block_is_paused event (set_paused true s)) as Hp.
  rewrite on_modified_eq, Hblock. rewrite Hblock in Hp. cbn [fst snd] in *.
  split_and!; [done|unfold paused; cbn [is_paused set_queue]; by rewrite Hp|].
  rewrite create_track_dirs_loop in Hrun. cbn [ops set_queue].
  exact (ensure_loop_ops _ _ _ _ ACC_TRACK_FOLDERS_NoDup Hrun).
Qed.

Lemma file_event_source_vanished_witness :
  (on_modified quiet (file_event (Car ++ ["monza"; "gone.json"]))
     (mk_state fs_new_setup)).1 = Raise FileNotFoundError
  ∧ paused (on_modified quiet (file_event (Car ++ ["monza"; "gone.json"]))
              (mk_state fs_new_setup)).2 = true
  ∧ ops (on_modified quiet (file_event (Car ++ ["monza"; "gone.json"]))
           (mk_state fs_new_setup)).2
    = [] ++ map (λ t, OpMkdir (os_path_join Car t))
                (missing_tracks fs_new_setup Car ACC_TRACK_FOLDERS).
Proof.
  apply (file_event_source_vanished quiet (file_event (Car ++ ["monza"; "gone.json"]))
           Car "monza" "gone.json" (mk_state fs_new_setup)).
  - reflexivity.
  - reflexivity.
  - vm_compute. discriminate.
  - vm_compute. reflexivity.
  - each_track ltac:(vm_compute; reflexivity).
  - vm_compute. reflexivity.
Defined.

(** X12. A file event in a folder of the car that is not a known track
    (the source track is skipped by name only): the file is copied under
    its name into all fifteen track directories. *)
Theorem file_event_outside_tracks (em : emitter) (event : FileSystemEvent)
    (carDir : path) (A name : string) (data : list byte) (s : state) :
  is_directory event = false →
  src_path event = os_path_join (os_path_join carDir A) name →
  A ∉ ACC_TRACK_FOLDERS →
  os_path_basename carDir ≠ "Setups" →
  is_dir (fs s) carDir = true →
  Forall (λ t, is_file (fs s) (os_path_join carDir t) = false) ACC_TRACK_FOLDERS →
  fs s !! src_path event = Some (File data) →
  Forall (λ t, is_dir (fs s) (os_path_join (os_path_join carDir t) name) = false)
         ACC_TRACK_FOLDERS →
  ∃ s', on_modified em event s = (Ok tt, s')
        ∧ Forall (λ t, fs s' !! os_path_join (os_path_join carDir t) name
                       = Some (File data)) ACC_TRACK_FOLDERS.
Proof.
  intros Hfile Hpath HA Hcar Hdir Hfree Hsrc Hnodir.
  destruct (on_modified_block_file_ok event carDir A name data (set_paused true s))
    as (sb & Hrun & Hall & _ & _); try done.
  rewrite on_modified_eq, Hrun. simpl. eexists. split; [reflexivity|]. simpl.
  apply Forall_forall. intros t Ht. rewrite Forall_forall in Hall.
  apply Hall; [done|]. by intros ->.
Qed.

Lemma file_event_outside_tracks_witness :
  ∃ s', on_modified quiet (file_event (Car ++ ["backup"; "a.json"]))
          (mk_state fs_stray_folder) = (Ok tt, s')
        ∧ Forall (λ t, fs s' !! os_path_join (os_path_join Car t) "a.json"
                       = Some (File bytes1)) ACC_TRACK_FOLDERS.
Proof.
  apply (file_event_outside_tracks quiet (file_event (Car ++ ["backup"; "a.json"]))
           Car "backup" "a.json" bytes1 (mk_state fs_stray_folder)).
  - reflexivity.
  - reflexivity.
  - apply (bool_decide_eq_false_1 ("backup" ∈ ACC_TRACK_FOLDERS)). by vm_compute.
  - vm_compute. discriminate.
  - vm_compute. reflexivity.
  - each_track ltac:(vm_compute; reflexivity).
  - vm_compute. reflexivity.
  - each_track ltac:(vm_compute; reflexivity).
Defined.

(** X13. Handling a file event again changes nothing more: in the
    situation of a sound car directory, a second [on_modified] call for the
    same file event, made right after the first, ends normally and leaves
    the file system exactly as the first call left it. *)
Theorem file_event_idempotent (em em' : emitter) (event : FileSystemEvent)
    (carDir : path) (A name : string) (data : list byte) (s : state) :
  is_directory event = false →
  src_path event = os_path_join (os_path_join carDir A) name →
  os_path_basename carDir ≠ "Setups" →
  is_dir (fs s) carDir = true →
  Forall (λ t, is_file (fs s) (os_path_join carDir t) = false) ACC_TRACK_FOLDERS →
  fs s !! src_path event = Some (File data) →
  Forall (λ t, is_dir (fs s) (os_path_join (os_path_join carDir t) name) = false)
         ACC_TRACK_FOLDERS →
  let first := on_modified em event s in
  let second := on_modified em' event first.2 in
  first.1 = Ok tt ∧ second.1 = Ok tt ∧ fs second.2 = fs first.2.
Proof.
  intros Hfile Hpath Hcar Hdir Hfree Hsrc Hnodir first second. subst first second.
  destruct (on_modified_block_file_ok event carDir A name data (set_paused true s))
    as (sb & Hrun & Hall & Hdirs & Hsrc'); try done.
  rewrite (on_modified_eq em), Hrun. cbn [fst snd].
  set (s1 := set_paused false _).
  assert (Hfs1 : fs s1 = fs sb) by done.
  assert (Hblock2 : ∃ sb2, on_modified_block event (set_paused true s1) = (Ok tt, sb2)
                           ∧ fs sb2 = fs sb).
  { rewrite (on_modified_block_file _ Hfile). simpl.
    unfold event_carName, event_trackDir, os_path_split. rewrite Hfile. simpl.
    rewrite Hpath, !os_path_dirname_join, !os_path_basename_join.
    destruct (decide (os_path_basename carDir = "Setups")); [done|].
    unfold bind at 1. rewrite create_track_dirs_loop, ensure_loop_noop by done.
    rewrite Hpath in Hsrc'.
    destruct (file_loop_idem (os_path_join (os_path_join carDir A) name) name
                carDir A data ACC_TRACK_FOLDERS (set_paused true s1))
      as (s2 & Hrun2 & Hfs2); [done| |by exists s2].
    apply Forall_forall. intros t Ht Hne.
    rewrite Forall_forall in Hall, Hdirs. split_and!.
    - intros Heq. apply os_path_join_inj in Heq as [Heq _].
      apply os_path_join_inj in Heq as [_ Heq]. by subst.
    - by apply Hdirs.
    - by apply Hall. }
  destruct Hblock2 as (sb2 & Hrun2 & Hfs2).
  rewrite (on_modified_eq em'), Hrun2. cbn [fst snd]. by split_and!.
Qed.

Lemma file_event_idempotent_witness :
  (on_modified quiet (file_event (Car ++ ["monza"; "a.json"]))
     (mk_state fs_new_setup)).1 = Ok tt
  ∧ (on_modified quiet (file_event (Car ++ ["monza"; "a.json"]))
       (on_modified quiet (file_event (Car ++ ["monza"; "a.json"]))
          (mk_state fs_new_setup)).2).1 = Ok tt
  ∧ fs (on_modified quiet (file_event (Car ++ ["monza"; "a.json"]))
          (on_modified quiet (file_event (Car ++ ["monza"; "a.json"]))
             (mk_state fs_new_setup)).2).2
    = fs (on_modified quiet (file_event (Car ++ ["monza"; "a.json"]))
            (mk_state fs_new_setup)).2.
Proof.
  apply (file_event_idempotent quiet quiet (file_event (Car ++ ["monza"; "a.json"]))
           Car "monza" "a.json" bytes1 (mk_state fs_new_setup)).
  - reflexivity.
  - reflexivity.
  - vm_compute. discriminate.
  - vm_compute. reflexivity.
  - each_track ltac:(vm_compute; reflexivity).
  - vm_compute. reflexivity.
  - each_track ltac:(vm_compute; reflexivity).
Defined.

(** ** The observer thread *)

(** X14. Only modification events reach the handler's code.  A run of the
    observer thread in which every queued event is a creation, a deletion
    or a move ends normally and performs no file system operation. *)
Theorem observer_run_ignores_other_events
    (rounds : list (list FileSystemEvent * emitter)) (s : state) :
  Forall (λ e, event_type e ≠ Modified) (event_queue s) →
  Forall (λ r, Forall (λ e, event_type e ≠ Modified) r.1) rounds →
  ∃ s', observer_run rounds s = (Ok tt, s') ∧ fs s' = fs s ∧ ops s' = ops s.
Proof. apply observer_run_other_events. Qed.

Lemma observer_run_ignores_other_events_witness :
  ∃ s', observer_run
          [([{| event_type := Created; src_path := Car ++ ["monza"; "a.json"];
                is_directory := false |}], quiet);
           ([{| event_type := Deleted; src_path := Car ++ ["monza"; "a.json"];
                is_directory := false |}], quiet)]
          (mk_state fs_new_setup) = (Ok tt, s')
        ∧ fs s' = fs (mk_state fs_new_setup) ∧ ops s' = ops (mk_state fs_new_setup).
Proof.
  apply (observer_run_ignores_other_events
           [([{| event_type := Created; src_path := Car ++ ["monza"; "a.json"];
                 is_directory := false |}], quiet);
            ([{| event_type := Deleted; src_path := Car ++ ["monza"; "a.json"];
                 is_directory := false |}], quiet)]
           (mk_state fs_new_setup)).
  - constructor.
  - repeat (apply Forall_cons; split; [simpl; by repeat constructor|]). constructor.
Defined.

(** X15. Once a handler call has raised, the watcher is dead: whatever
    events arrive afterwards, the observer thread dispatches none of them
    (the observer stays paused, and only the handler resumes it), so no
    file system operation is ever performed again. *)
Theorem observer_run_dead_after_error (em : emitter) (event : FileSystemEvent)
    (s : state) (e : exn) (rounds : list (list FileSystemEvent * emitter)) :
  (on_modified_block event (set_paused true s)).1 = Raise e →
  let s1 := (on_modified em event s).2 in
  ∃ s2, observer_run rounds s1 = (Ok tt, s2)
        ∧ fs s2 = fs s1 ∧ ops s2 = ops s1 ∧ obs_log s2 = obs_log s1
        ∧ paused s2 = true.
Proof.
  intros Hraise s1.
  assert (Hp : paused s1 = true).
  { subst s1. rewrite on_modified_eq.
    pose proof (on_modified_block_is_paused event (set_paused true s)) as Hp.
    destruct (on_modified_block event (set_paused true s)) as [r sb].
    simpl in *. subst r. unfold paused. simpl. by rewrite Hp. }
  rewrite (observer_run_paused rounds s1 Hp). eexists. split; [reflexivity|done].
Qed.

Lemma observer_run_dead_after_error_witness :
  ∃ s2, observer_run [([file_event (Car ++ ["monza"; "a.json"])], quiet)]
          (on_modified quiet (dir_event (Car ++ ["monza"])) (mk_state fs_new_setup)).2
        = (Ok tt, s2)
        ∧ fs s2 = fs (on_modified quiet (dir_event (Car ++ ["monza"]))
                        (mk_state fs_new_setup)).2
        ∧ ops s2 = ops (on_modified quiet (dir_event (Car ++ ["monza"]))
                          (mk_state fs_new_setup)).2
        ∧ obs_log s2 = obs_log (on_modified quiet (dir_event (Car ++ ["monza"]))
                                  (mk_state fs_new_setup)).2
        ∧ paused s2 = true.
Proof.
  apply (observer_run_dead_after_error quiet (dir_event (Car ++ ["monza"]))
           (mk_state fs_new_setup) UnboundLocalError
           [([file_event (Car ++ ["monza"; "a.json"])], quiet)]).
  vm_compute. reflexivity.
Defined.

(** ** [init] *)

(** X16. Whatever its outcome, [init] changes nothing outside the root it
    is given, and the initialization of one car changes nothing outside
    that car's directory: the other cars are not touched by it. *)
Theorem init_changes_only_under_root (root : path) (car : string) (s : state)
    (p : path) :
  (¬ under root p → fs (init root s).2 !! p = fs s !! p)
  ∧ (¬ under (os_path_join root car) p → fs (init_car root car s).2 !! p = fs s !! p).
Proof.
  split; intros Hp.
  - destruct (init root s) as [r s'] eqn:E.
    destruct (cou_init root _ _ _ E) as [H _]. simpl. by apply H.
  - rewrite init_car_eq.
    destruct (init_car_body (os_path_join root car) s) as [r s'] eqn:E.
    destruct (cou_init_car_body _ _ _ _ E) as [H _]. simpl. by apply H.
Qed.

Lemma init_changes_only_under_root_witness :
  fs (init_car Root "ferrari_488_gt3" (mk_state (fs_single_setup bytes1))).2
     !! (Root ++ ["other_car"; "monza"; "setup1.json"])
  = fs (mk_state (fs_single_setup bytes1))
       !! (Root ++ ["other_car"; "monza"; "setup1.json"]).
Proof.
  apply (proj2 (init_changes_only_under_root Root "ferrari_488_gt3"
                  (mk_state (fs_single_setup bytes1))
                  (Root ++ ["other_car"; "monza"; "setup1.json"]))).
  intros [r Hr]. vm_compute in Hr. discriminate.
Defined.

(** X17. A car without setups (its track directories, where they exist,
    hold no regular file): its initialization ends normally and does what
    [create_track_dirs] does and nothing more: one [mkdir] per missing
    track directory, no rename, no copy, and every existing entry is
    kept. *)
Theorem init_car_without_setups (setupsPath : path) (car : string) (s : state) :
  let carPath := os_path_join setupsPath car in
  is_dir (fs s) carPath = true →
  Forall (λ t, is_file (fs s) (os_path_join carPath t) = false) ACC_TRACK_FOLDERS →
  Forall (λ t, listing (fs s) (os_path_join carPath t) true false = [])
         ACC_TRACK_FOLDERS →
  let res := init_car setupsPath car s in
  res = create_track_dirs carPath s
  ∧ res.1 = Ok tt
  ∧ ops res.2 = ops s ++ map (λ t, OpMkdir (os_path_join carPath t))
                             (missing_tracks (fs s) carPath ACC_TRACK_FOLDERS).
Proof.
  intros carPath Hcar Hfree Hempty res. subst res.
  destruct (create_track_dirs_ok carPath s Hcar Hfree) as (s1 & Hrun & Hdirs & Hsame & _).
  assert (Hinit : init_car setupsPath car s = (Ok tt, s1)).
  { rewrite init_car_eq. fold carPath. unfold init_car_body, bind. rewrite Hrun.
    rewrite rename_loop_empty; [done|].
    apply Forall_forall. intros t Ht. split; [by apply Hdirs|].
    rewrite Forall_forall in Hempty.
    eapply listing_files_agree; [|simpl; lia|by apply Hempty].
    intros n. apply Hsame. }
  rewrite Hinit, Hrun. split_and!; [done|done|]. cbn [fst snd].
  rewrite create_track_dirs_loop in Hrun.
  exact (ensure_loop_ops _ _ _ _ ACC_TRACK_FOLDERS_NoDup Hrun).
Qed.

Lemma init_car_without_setups_witness :
  init_car Root "ferrari_488_gt3" (mk_state base_fs)
  = create_track_dirs (os_path_join Root "ferrari_488_gt3") (mk_state base_fs)
  ∧ (init_car Root "ferrari_488_gt3" (mk_state base_fs)).1 = Ok tt
  ∧ ops (init_car Root "ferrari_488_gt3" (mk_state base_fs)).2
    = [] ++ map (λ t, OpMkdir (os_path_join (os_path_join Root "ferrari_488_gt3") t))
                (missing_tracks base_fs (os_path_join Root "ferrari_488_gt3")
                   ACC_TRACK_FOLDERS).
Proof.
  apply (init_car_without_setups Root "ferrari_488_gt3" (mk_state base_fs)).
  - vm_compute. reflexivity.
  - each_track ltac:(vm_compute; reflexivity).
  - each_track ltac:(vm_compute; reflexivity).
Defined.

(** X18. [init] on a car with a single setup, for any known track and any
    file name.  When the root's only car has exactly one setup, [setup] in
    the known track [A] (no track name of the car taken by a regular file,
    the prefixed name not a directory in a track), [init] ends normally;
    afterwards every one of the fifteen track directories lists exactly
    one setup, named [A-setup], with the bytes of the original, and in [A]
    the original was renamed to it.  Cars with several setups are not
    covered. *)
Theorem init_one_setup (setupsPath : path) (car A setup : string)
    (data : list byte) (s : state) :
  let carPath := os_path_join setupsPath car in
  let prefixed := A +:+ "-" +:+ setup in
  A ∈ ACC_TRACK_FOLDERS →
  is_dir (fs s) setupsPath = true →
  listing (fs s) setupsPath false true = [car] →
  Forall (λ t, is_file (fs s) (os_path_join carPath t) = false) ACC_TRACK_FOLDERS →
  fs s !! os_path_join (os_path_join carPath A) setup = Some (File data) →
  Forall (λ t, listing (fs s) (os_path_join carPath t) true false
               = if decide (t = A) then [setup] else []) ACC_TRACK_FOLDERS →
  Forall (λ t, is_dir (fs s) (os_path_join (os_path_join carPath t) prefixed) = false)
         ACC_TRACK_FOLDERS →
  ∃ s', init setupsPath s = (Ok tt, s')
        ∧ Forall (λ t, listing (fs s') (os_path_join carPath t) true false = [prefixed]
                       ∧ fs s' !! os_path_join (os_path_join carPath t) prefixed
                         = Some (File data))
                 ACC_TRACK_FOLDERS
        ∧ OpRename (os_path_join (os_path_join carPath A) setup)
                   (os_path_join (os_path_join carPath A) prefixed) ∈ ops s'.
Proof.
  intros carPath prefixed HA Hroot Hcars Hfree Hsrc Honly Hnodir.
  assert (Hcar : is_dir (fs s) carPath = true).
  { by apply (listing_dirs_singleton _ _ _ Hcars). }
  destruct (init_car_body_one_setup carPath A setup data s HA Hcar Hfree Hsrc
              Honly Hnodir) as (s' & Hrun & Hall & Hop).
  exists s'. split_and!; [|done|done].
  unfold init, bind. rewrite list_dir_eq. unfold is_dir in Hroot.
  destruct (fs s !! setupsPath) as [[]|]; try done.
  rewrite Hcars. simpl. unfold bind. rewrite init_car_eq. fold carPath.
  by rewrite Hrun.
Qed.

Lemma init_one_setup_witness :
  ∃ s', init Root (mk_state fs_spa_setup) = (Ok tt, s')
        ∧ Forall (λ t, listing (fs s') (os_path_join (os_path_join Root "ferrari_488_gt3") t)
                         true false = ["Spa" +:+ "-" +:+ "wet.json"]
                       ∧ fs s' !! os_path_join
                                     (os_path_join (os_path_join Root "ferrari_488_gt3") t)
                                     ("Spa" +:+ "-" +:+ "wet.json")
                         = Some (File bytes2))
                 ACC_TRACK_FOLDERS
        ∧ OpRename (os_path_join (os_path_join (os_path_join Root "ferrari_488_gt3")
                                    "Spa") "wet.json")
                   (os_path_join (os_path_join (os_path_join Root "ferrari_488_gt3")
                                    "Spa") ("Spa" +:+ "-" +:+ "wet.json")) ∈ ops s'.
Proof.
  apply (init_one_setup Root "ferrari_488_gt3" "Spa" "wet.json" bytes2
           (mk_state fs_spa_setup)).
  - apply (bool_decide_eq_true_1 ("Spa" ∈ ACC_TRACK_FOLDERS)). by vm_compute.
  - vm_compute. reflexivity.
  - vm_compute. reflexivity.
  - each_track ltac:(vm_compute; reflexivity).
  - vm_compute. reflexivity.
  - each_track ltac:(vm_compute; reflexivity).
  - each_track ltac:(vm_compute; reflexivity).
Defined.
